(** * Flight schedule parser and query tool: a shallow embedding of
    [flight_parser.py] and the properties of its validation engine and query
    matcher.

    Conventions of the embedding.
    - A Python [str] is a [string]; a character is a code point below 256.
    - A Python [float] is a binary64 number, [spec_float] at precision 53.
    - A Python object read from JSON is a [value]; a [dict] is an association
      list looked up by key.
    - A call that may raise returns a [result]. *)

From Stdlib Require Import ZArith NArith List String Ascii Bool Lia.
From Stdlib Require Import Floats.SpecFloat.
From Stdlib Require Import Sorted Permutation.
Import ListNotations.

Local Open Scope string_scope.
Local Open Scope list_scope.
Local Open Scope Z_scope.

(** ** Exceptions *)

Inductive exn : Type :=
| ValueError
| TypeError
| KeyError
| AttributeError
| OverflowError
| StopIteration
| CsvError.

Inductive result (A : Type) : Type :=
| Ok (a : A)
| Raise (e : exn).

Arguments Ok {A} a.
Arguments Raise {A} e.

Definition bind {A B : Type} (r : result A) (k : A -> result B) : result B :=
  match r with
  | Ok a => k a
  | Raise e => Raise e
  end.

Notation "'do' x <- r ; k" := (bind r (fun x => k))
  (at level 10, x name, r at level 100, k at level 200).

(** [try: ... except Exception: ...] *)
Definition catch {A : Type} (r : result A) (handler : A) : A :=
  match r with
  | Ok a => a
  | Raise _ => handler
  end.

(** ** Characters and strings *)

Definition code (c : ascii) : N := N_of_ascii c.

Definition between (lo hi : N) (c : ascii) : bool :=
  ((lo <=? code c) && (code c <=? hi))%N.

(** [str.isspace] on one character: TAB..CR, FS..US, space, NEL, NBSP. *)
Definition isspace (c : ascii) : bool :=
  between 9 13 c || between 28 32 c || (code c =? 133)%N || (code c =? 160)%N.

Definition is_digit (c : ascii) : bool := between 48 57 c.
Definition is_upper (c : ascii) : bool := between 65 90 c.
Definition is_lower (c : ascii) : bool := between 97 122 c.
Definition is_alnum (c : ascii) : bool := is_upper c || is_lower c || is_digit c.

(** [s.lstrip()] *)
Fixpoint lstrip (s : string) : string :=
  match s with
  | String c s' => if isspace c then lstrip s' else s
  | EmptyString => EmptyString
  end.

(** [s.rstrip(chars)] for the characters selected by [p] *)
Fixpoint rstrip_by (p : ascii -> bool) (s : string) : string :=
  match s with
  | EmptyString => EmptyString
  | String c s' =>
      match rstrip_by p s' with
      | EmptyString => if p c then EmptyString else String c EmptyString
      | r => String c r
      end
  end.

Definition rstrip (s : string) : string := rstrip_by isspace s.

(** [s.strip()] *)
Definition strip (s : string) : string := rstrip (lstrip s).

(** [s.startswith(c)] for a one-character prefix *)
Definition startswith_char (c : ascii) (s : string) : bool :=
  match s with
  | String c' _ => Ascii.eqb c' c
  | EmptyString => false
  end.

(** [c.lower()]: the letters A-Z and the capital letters of Latin-1 *)
Definition lower_char (c : ascii) : ascii :=
  if is_upper c || (between 192 222 c && negb (code c =? 215)%N)
  then ascii_of_N (code c + 32) else c.

Fixpoint lower (s : string) : string :=
  match s with
  | String c s' => String (lower_char c) (lower s')
  | EmptyString => EmptyString
  end.

(** [sep.join(l)] *)
Fixpoint join (sep : string) (l : list string) : string :=
  match l with
  | [] => ""
  | [x] => x
  | x :: rest => (x ++ sep ++ join sep rest)%string
  end.

(** Python's truth value of a string: [if s] *)
Definition nonempty (s : string) : bool :=
  match s with
  | EmptyString => false
  | String _ _ => true
  end.

(** ** Regular expressions of the module

    [RE_FLIGHT_ID = ^[A-Za-z0-9]{2,8}$] and [RE_AIRPORT = ^[A-Z]{3}$], used
    with [match]: the engine takes a character of the class while it may
    take more ([hi] left), or stops once it has taken enough ([lo] used up)
    and tries [$], which holds at the end of the string and just before a
    final newline. *)

Fixpoint all_in (cls : ascii -> bool) (s : string) : bool :=
  match s with
  | String c s' => cls c && all_in cls s'
  | EmptyString => true
  end.

Definition at_dollar (rest : string) : bool :=
  match rest with
  | EmptyString => true
  | String c EmptyString => (code c =? 10)%N
  | _ => false
  end.

Fixpoint re_class_repeat (cls : ascii -> bool) (lo hi : nat) (s : string) {struct s}
  : bool :=
  match s with
  | String c s' =>
      match hi with
      | S hi' => cls c && re_class_repeat cls (pred lo) hi' s'
      | O => false
      end
      || ((lo =? 0)%nat && at_dollar s)
  | EmptyString => (lo =? 0)%nat
  end.

Definition RE_FLIGHT_ID (s : string) : bool := re_class_repeat is_alnum 2 8 s.
Definition RE_AIRPORT (s : string) : bool := re_class_repeat is_upper 3 3 s.

(** ** Dates and times: [datetime.strptime] and [strftime] with
    [DATETIME_FMT = "%Y-%m-%d %H:%M"] *)

Record datetime : Type := mk_datetime
  { year : Z; month : Z; day : Z; hour : Z; minute : Z }.

Definition is_leap (y : Z) : bool :=
  (y mod 4 =? 0) && (negb (y mod 100 =? 0) || (y mod 400 =? 0)).

Definition days_in_month (y m : Z) : Z :=
  match m with
  | 2 => if is_leap y then 29 else 28
  | 4 | 6 | 9 | 11 => 30
  | _ => 31
  end.

(** The constructor [datetime(year, month, day, hour, minute)] *)
Definition datetime_new (y m d H M : Z) : result datetime :=
  if (1 <=? y) && (y <=? 9999)
     && (1 <=? m) && (m <=? 12)
     && (1 <=? d) && (d <=? days_in_month y m)
     && (0 <=? H) && (H <=? 23)
     && (0 <=? M) && (M <=? 59)
  then Ok (mk_datetime y m d H M)
  else Raise ValueError.

(** A backtracking matcher returns its matches in the order the regular
    expression engine tries them, each with the text that is left. *)
Definition matcher (A : Type) : Type := list ascii -> list (A * list ascii).

Definition digit_val (c : ascii) : Z := Z.of_N (code c) - 48.

Definition in_range (lo hi : ascii) (c : ascii) : bool :=
  between (code lo) (code hi) c.

Definition is_char (x : ascii) (c : ascii) : bool := Ascii.eqb c x.

Definition one (p : ascii -> bool) : matcher Z :=
  fun s =>
    match s with
    | c :: r => if p c then [(digit_val c, r)] else []
    | [] => []
    end.

Definition two (p q : ascii -> bool) : matcher Z :=
  fun s =>
    match s with
    | a :: b :: r =>
        if p a && q b then [(10 * digit_val a + digit_val b, r)] else []
    | _ => []
    end.

Definition lit (x : ascii) : matcher unit :=
  fun s =>
    match s with
    | c :: r => if Ascii.eqb c x then [(tt, r)] else []
    | [] => []
    end.

Definition alt {A : Type} (p q : matcher A) : matcher A :=
  fun s => p s ++ q s.

Definition andthen {A B : Type} (p : matcher A) (k : A -> matcher B) : matcher B :=
  fun s => flat_map (fun ar => k (fst ar) (snd ar)) (p s).

Definition yield {A : Type} (a : A) : matcher A := fun s => [(a, s)].

Infix "<|>" := alt (at level 50, left associativity).
Notation "x <~ p ;; k" := (andthen p (fun x => k))
  (at level 61, p at next level, right associativity).
Notation "p ~> k" := (andthen p (fun _ => k))
  (at level 61, right associativity).

(** [\s*] and [\s+], greedy: the longest run first *)
Fixpoint spaces_star (s : list ascii) : list (unit * list ascii) :=
  match s with
  | c :: r => if isspace c then spaces_star r ++ [(tt, s)] else [(tt, s)]
  | [] => [(tt, [])]
  end.

Definition spaces_plus : matcher unit :=
  fun s =>
    match s with
    | c :: r => if isspace c then spaces_star r else []
    | [] => []
    end.

(** The groups of [_strptime]'s regular expressions *)
Definition re_Y : matcher Z :=       (* \d\d\d\d *)
  a <~ two is_digit is_digit ;; b <~ two is_digit is_digit ;; yield (100 * a + b).

Definition re_m : matcher Z :=       (* 1[0-2]|0[1-9]|[1-9] *)
  two (is_char "1") (in_range "0" "2")
  <|> two (is_char "0") (in_range "1" "9")
  <|> one (in_range "1" "9").

Definition re_d : matcher Z :=       (* 3[0-1]|[1-2]\d|0[1-9]|[1-9]| [1-9] *)
  two (is_char "3") (in_range "0" "1")
  <|> two (in_range "1" "2") is_digit
  <|> two (is_char "0") (in_range "1" "9")
  <|> one (in_range "1" "9")
  <|> (lit " " ~> one (in_range "1" "9")).

Definition re_H : matcher Z :=       (* 2[0-3]|[0-1]\d|\d *)
  two (is_char "2") (in_range "0" "3")
  <|> two (in_range "0" "1") is_digit
  <|> one is_digit.

Definition re_M : matcher Z :=       (* [0-5]\d|\d *)
  two (in_range "0" "5") is_digit
  <|> one is_digit.

(** The format after [_strptime] has compiled it: the blank of the format
    stands for [\s+]. *)
Definition format_regex : matcher (Z * Z * Z * Z * Z) :=
  y <~ re_Y ;; lit "-" ~> m <~ re_m ;; lit "-" ~> d <~ re_d ;;
  spaces_plus ~> H <~ re_H ;; lit ":" ~> M <~ re_M ;;
  yield (y, m, d, H, M).

(** [datetime.strptime(s, DATETIME_FMT)]: the first match of the regular
    expression has to end where the string ends. *)
Definition strptime (s : string) : result datetime :=
  match format_regex (list_ascii_of_string s) with
  | ((y, m, d, H, M), []) :: _ => datetime_new y m d H M
  | _ => Raise ValueError
  end.

Definition digit_char (n : Z) : ascii := ascii_of_N (Z.to_N (48 + n)).

Definition pad2 (n : Z) : string :=
  String (digit_char (n / 10)) (String (digit_char (n mod 10)) "").

Definition pad4 (n : Z) : string :=
  (pad2 (n / 100) ++ pad2 (n mod 100))%string.

(** [dt.strftime(DATETIME_FMT)], the year on four digits *)
Definition strftime (dt : datetime) : string :=
  (pad4 (year dt) ++ "-" ++ pad2 (month dt) ++ "-" ++ pad2 (day dt)
   ++ " " ++ pad2 (hour dt) ++ ":" ++ pad2 (minute dt))%string.

(** Comparison of two datetimes: field by field, the year first *)
Fixpoint lex_compare (a b : list Z) : comparison :=
  match a, b with
  | x :: a', y :: b' =>
      match x ?= y with
      | Eq => lex_compare a' b'
      | c => c
      end
  | [], [] => Eq
  | [], _ :: _ => Lt
  | _ :: _, [] => Gt
  end.

Definition dt_key (dt : datetime) : list Z :=
  [year dt; month dt; day dt; hour dt; minute dt].

Definition dt_compare (a b : datetime) : comparison :=
  lex_compare (dt_key a) (dt_key b).

Definition dt_le (a b : datetime) : bool :=       (* a <= b *)
  match dt_compare a b with Gt => false | _ => true end.

Definition dt_lt (a b : datetime) : bool :=       (* a < b *)
  match dt_compare a b with Lt => true | _ => false end.

Definition dt_gt (a b : datetime) : bool := dt_lt b a.   (* a > b *)

(** ** Floats: [float(...)], comparison and [round(x, 2)] *)

Definition float : Type := spec_float.

Definition prec : Z := 53.
Definition emax : Z := 1024.

Definition pos_zero : float := S754_zero false.

(** The binary64 number nearest to [n / d] ([0 <= n], [0 < d]), ties to
    even, with sign [neg]: the quotient is taken with two bits more than the
    format keeps and a sticky bit for the remainder, then rounded once. *)
Definition float_of_ratio (neg : bool) (n d : Z) : float :=
  if n =? 0 then S754_zero neg
  else
    let k := Z.max 0 (56 + Z.log2 d - Z.log2 n) in
    let q := (n * 2 ^ k) / d in
    let sticky := if (n * 2 ^ k) mod d =? 0 then 0 else 1 in
    binary_normalize prec emax (cond_Zopp neg (2 * q + sticky)) (- k - 1) neg.

(** [n * 10 ^ k], correctly rounded *)
Definition float_of_decimal (neg : bool) (n k : Z) : float :=
  if 0 <=? k then float_of_ratio neg (n * 10 ^ k) 1
  else float_of_ratio neg n (10 ^ (- k)).

(** [float(z)] for an [int] *)
Definition float_of_int (z : Z) : result float :=
  match float_of_ratio (z <? 0) (Z.abs z) 1 with
  | S754_infinity _ => Raise OverflowError
  | f => Ok f
  end.

(** The white space [float] removes at both ends of its argument *)
Definition float_space (c : ascii) : bool :=
  between 9 13 c || (code c =? 32)%N || (code c =? 133)%N || (code c =? 160)%N.

Fixpoint lstrip_by (p : ascii -> bool) (s : string) : string :=
  match s with
  | String c s' => if p c then lstrip_by p s' else s
  | EmptyString => EmptyString
  end.

(** An underscore is allowed between two digits only; it is dropped. *)
Fixpoint drop_underscores (prev : ascii) (s : list ascii) : option (list ascii) :=
  match s with
  | [] => if is_char "_" prev then None else Some []
  | c :: r =>
      if is_char "_" c then
        if is_digit prev then drop_underscores c r else None
      else if is_char "_" prev && negb (is_digit c) then None
      else option_map (cons c) (drop_underscores c r)
  end.

Fixpoint take_digits (s : list ascii) : list ascii * list ascii :=
  match s with
  | c :: r =>
      if is_digit c then let (ds, r') := take_digits r in (c :: ds, r')
      else ([], s)
  | [] => ([], [])
  end.

Definition digits_value (ds : list ascii) : Z :=
  fold_left (fun acc c => 10 * acc + digit_val c) ds 0.

Definition take_sign (s : list ascii) : bool * list ascii :=
  match s with
  | c :: r =>
      if is_char "-" c then (true, r)
      else if is_char "+" c then (false, r)
      else (false, s)
  | [] => (false, [])
  end.

(** The exponent part [e[+-]digits]; without digits nothing is consumed. *)
Definition take_exponent (s : list ascii) : Z * list ascii :=
  match s with
  | c :: r =>
      if is_char "e" c || is_char "E" c then
        let (neg, r1) := take_sign r in
        match take_digits r1 with
        | ([], _) => (0, s)
        | (ds, r2) => (if neg then - digits_value ds else digits_value ds, r2)
        end
      else (0, s)
  | [] => (0, [])
  end.

(** A decimal numeral, all of [s]: digits, an optional point and digits,
    an optional exponent; at least one digit before the exponent. *)
Definition parse_decimal (neg : bool) (s : list ascii) : option float :=
  let (ip, r1) := take_digits s in
  let (fp, r2) :=
    match r1 with
    | c :: r => if is_char "." c then take_digits r else ([], r1)
    | [] => ([], r1)
    end in
  match ip ++ fp with
  | [] => None
  | ds =>
      match take_exponent r2 with
      | (ex, []) =>
          Some (float_of_decimal neg (digits_value ds) (ex - Z.of_nat (List.length fp)))
      | _ => None
      end
  end.

(** [inf], [infinity] and [nan], in any case *)
Definition parse_inf_or_nan (neg : bool) (s : list ascii) : option float :=
  let w := lower (string_of_list_ascii s) in
  if String.eqb w "inf" || String.eqb w "infinity" then Some (S754_infinity neg)
  else if String.eqb w "nan" then Some S754_nan
  else None.

(** [float(s)] for a [str] *)
Definition float_of_string (s : string) : result float :=
  let t := rstrip_by float_space (lstrip_by float_space s) in
  match drop_underscores " " (list_ascii_of_string t) with
  | None => Raise ValueError
  | Some cs =>
      let (neg, body) := take_sign cs in
      match parse_decimal neg body with
      | Some f => Ok f
      | None =>
          match parse_inf_or_nan neg body with
          | Some f => Ok f
          | None => Raise ValueError
          end
      end
  end.

Definition float_le (a b : float) : bool := SFleb a b.   (* a <= b *)
Definition float_lt (a b : float) : bool := SFltb a b.   (* a < b *)
Definition float_gt (a b : float) : bool := SFltb b a.   (* a > b *)
Definition float_eq (a b : float) : bool := SFeqb a b.   (* a == b *)

(** Rounding of [n / d] to the nearest integer, ties to even; [0 < d] *)
Definition round_half_even (n d : Z) : Z :=
  let q := n / d in
  let r := n mod d in
  match 2 * r ?= d with
  | Lt => q
  | Gt => q + 1
  | Eq => if Z.even q then q else q + 1
  end.

(** The exact value of a finite float as a fraction [n / d], sign apart *)
Definition exact_ratio (m : positive) (e : Z) : Z * Z :=
  if 0 <=? e then (Zpos m * 2 ^ e, 1) else (Zpos m, 2 ^ (- e)).

(** [round(x, ndigits)] for [0 <= ndigits]: the exact value of [x] is rounded
    to [ndigits] decimals, ties to even, and read back as a float. *)
Definition round_ndigits (x : float) (ndigits : Z) : result float :=
  match x with
  | S754_finite s m e =>
      let (n, d) := exact_ratio m e in
      let k := round_half_even (n * 10 ^ ndigits) d in
      match float_of_ratio s k (10 ^ ndigits) with
      | S754_infinity _ => Raise OverflowError
      | r => Ok r
      end
  | _ => Ok x
  end.

(** ** Python objects, as [json.load] gives them *)

Local Set Warnings "-register-all".

Inductive value : Type :=
| VNone
| VBool (b : bool)
| VInt (z : Z)
| VFloat (f : float)
| VStr (s : string)
| VList (l : list value)
| VDict (d : list (string * value)).

Definition dict : Type := list (string * value).

(** [d.get(k)] as an option; the first binding of a key is the dict's *)
Fixpoint dict_get (k : string) (d : dict) : option value :=
  match d with
  | (k', v) :: d' => if String.eqb k' k then Some v else dict_get k d'
  | [] => None
  end.

(** [k in d] *)
Definition dict_mem (k : string) (d : dict) : bool :=
  match dict_get k d with Some _ => true | None => false end.

(** Truth value: [if v] *)
Definition truthy (v : value) : bool :=
  match v with
  | VNone => false
  | VBool b => b
  | VInt z => negb (z =? 0)
  | VFloat f => negb (float_eq f pos_zero)
  | VStr s => nonempty s
  | VList l => match l with [] => false | _ => true end
  | VDict d => match d with [] => false | _ => true end
  end.

(** [float(v)] *)
Definition float_of_value (v : value) : result float :=
  match v with
  | VFloat f => Ok f
  | VInt z => float_of_int z
  | VBool b => float_of_int (if b then 1 else 0)
  | VStr s => float_of_string s
  | VNone | VList _ | VDict _ => Raise TypeError
  end.

(** [int == float], compared exactly *)
Definition int_eq_float (z : Z) (f : float) : bool :=
  match f with
  | S754_zero _ => z =? 0
  | S754_finite s m e =>
      let (n, d) := exact_ratio m e in
      (if s then - z else z) * d =? n
  | _ => false
  end.

(** [a == b] on objects of two different documents: no object is shared, so
    a NaN equals nothing, itself included; the keys of a dict are distinct. *)
Fixpoint py_eq (a b : value) : bool :=
  match a, b with
  | VNone, VNone => true
  | VStr s, VStr t => String.eqb s t
  | VBool x, VBool y => Bool.eqb x y
  | VBool x, VInt z | VInt z, VBool x => z =? (if x then 1 else 0)
  | VBool x, VFloat f | VFloat f, VBool x => int_eq_float (if x then 1 else 0) f
  | VInt x, VInt y => x =? y
  | VInt z, VFloat f | VFloat f, VInt z => int_eq_float z f
  | VFloat f, VFloat g => float_eq f g
  | VList l, VList l' =>
      (fix go (l l' : list value) : bool :=
         match l, l' with
         | [], [] => true
         | x :: r, y :: r' => py_eq x y && go r r'
         | _, _ => false
         end) l l'
  | VDict d, VDict d' =>
      (List.length d =? List.length d')%nat
      && (fix go (d : list (string * value)) : bool :=
            match d with
            | [] => true
            | (k, v) :: r =>
                match dict_get k d' with
                | Some v' => py_eq v v' && go r
                | None => false
                end
            end) d
  | _, _ => false
  end.

(** ** The module [flight_parser] *)

(** [parse_datetime]: every exception of [strptime] becomes [None]; an
    argument that is not a string makes [strptime] raise. *)
Definition parse_datetime (s : value) : option datetime :=
  catch
    (match s with
     | VStr t => do dt <- strptime t; Ok (Some dt)
     | _ => Raise TypeError
     end)
    None.

(** [if c: errors.append(msg)] *)
Definition append_if (c : bool) (msg : string) (errors : list string) : list string :=
  if c then errors ++ [msg] else errors.

Definition is_some {A : Type} (o : option A) : bool :=
  match o with Some _ => true | None => false end.

Definition validate_row (cells : list string) : result (bool * dict * list string) :=
  let errors := [] in
  if (List.length cells <? 6)%nat then
    Ok (false, [], ["missing required fields"])
  else
  match map strip (firstn 6 cells) with
  | [flight_id; origin; destination; dep_s; arr_s; price_s] =>
      (* presence checks *)
      let errors := append_if (negb (nonempty flight_id)) "missing flight_id" errors in
      let errors := append_if (negb (nonempty origin)) "missing origin field" errors in
      let errors := append_if (negb (nonempty destination)) "missing destination field" errors in
      let errors := append_if (negb (nonempty dep_s)) "missing departure_datetime" errors in
      let errors := append_if (negb (nonempty arr_s)) "missing arrival_datetime" errors in
      let errors := append_if (negb (nonempty price_s)) "missing price" errors in
      (* flight_id *)
      let errors :=
        if nonempty flight_id && negb (RE_FLIGHT_ID flight_id) then
          if (String.length flight_id <? 2)%nat || (8 <? String.length flight_id)%nat
          then errors ++ ["flight_id length must be 2-8 alphanumeric characters"]
          else errors ++ ["invalid flight_id format"]
        else errors in
      (* origin/destination codes *)
      let errors := append_if (nonempty origin && negb (RE_AIRPORT origin))
                              "invalid origin code" errors in
      let errors := append_if (nonempty destination && negb (RE_AIRPORT destination))
                              "invalid destination code" errors in
      (* datetimes *)
      let dep_dt := if nonempty dep_s then parse_datetime (VStr dep_s) else None in
      let arr_dt := if nonempty arr_s then parse_datetime (VStr arr_s) else None in
      let errors := append_if (nonempty dep_s && negb (is_some dep_dt))
                              "invalid departure datetime" errors in
      let errors := append_if (nonempty arr_s && negb (is_some arr_dt))
                              "invalid arrival datetime" errors in
      let errors :=
        match dep_dt, arr_dt with
        | Some d, Some a =>
            append_if (dt_le a d) "arrival before or equal to departure" errors
        | _, _ => errors
        end in
      (* price *)
      let '(price, errors) :=
        if nonempty price_s then
          match float_of_string price_s with
          | Ok p => (Some p, append_if (float_le p pos_zero)
                                       "negative or zero price value" errors)
          | Raise _ => (None, errors ++ ["invalid price format"])
          end
        else (None, errors) in
      match errors with
      | _ :: _ => Ok (false, [], errors)
      | [] =>
          match dep_dt, arr_dt, price with
          | Some d, Some a, Some p =>
              do rounded <- round_ndigits p 2;
              Ok (true,
                  [("flight_id", VStr flight_id);
                   ("origin", VStr origin);
                   ("destination", VStr destination);
                   ("departure_datetime", VStr (strftime d));
                   ("arrival_datetime", VStr (strftime a));
                   ("price", VFloat rounded)],
                  [])
          | None, _, _ | _, None, _ => Raise AttributeError
          | _, _, None => Raise TypeError
          end
      end
  | _ => Raise ValueError
  end.

(** *** [csv.reader] on one line, default dialect: comma as delimiter, the
    double quote as quote character, doubled inside a quoted field; not
    strict. *)

Inductive csv_state : Type :=
| START_RECORD
| START_FIELD
| IN_FIELD
| IN_QUOTED_FIELD
| QUOTE_IN_QUOTED_FIELD
| EAT_CRNL.

Record reader : Type := mk_reader
  { state : csv_state;
    fields : list string;
    field : string }.

Definition field_limit : N := 131072.

Definition LF : ascii := ascii_of_N 10.
Definition CR : ascii := ascii_of_N 13.
Definition quotechar : ascii := ascii_of_N 34.
Definition delimiter : ascii := ",".

Definition set_state (st : csv_state) (r : reader) : reader :=
  mk_reader st (fields r) (field r).

Definition parse_save_field (r : reader) : reader :=
  mk_reader (state r) (fields r ++ [field r]) "".

Definition parse_add_char (r : reader) (c : ascii) : result reader :=
  if (field_limit <=? N.of_nat (String.length (field r)))%N then Raise CsvError
  else Ok (mk_reader (state r) (fields r) (field r ++ String c "")%string).

Definition is_newline (c : ascii) : bool := is_char LF c || is_char CR c.

(** One step of the reader; [None] is the end of the line. *)
Definition parse_process_char (r : reader) (c : option ascii) : result reader :=
  let start_field (r : reader) :=
    match c with
    | None => Ok (set_state START_RECORD (parse_save_field r))
    | Some ch =>
        if is_newline ch then Ok (set_state EAT_CRNL (parse_save_field r))
        else if is_char quotechar ch then Ok (set_state IN_QUOTED_FIELD r)
        else if is_char delimiter ch then Ok (parse_save_field r)
        else do r' <- parse_add_char r ch; Ok (set_state IN_FIELD r')
    end in
  match state r with
  | START_RECORD =>
      match c with
      | None => Ok r
      | Some ch =>
          if is_newline ch then Ok (set_state EAT_CRNL r)
          else start_field (set_state START_FIELD r)
      end
  | START_FIELD => start_field r
  | IN_FIELD =>
      match c with
      | None => Ok (set_state START_RECORD (parse_save_field r))
      | Some ch =>
          if is_newline ch then Ok (set_state EAT_CRNL (parse_save_field r))
          else if is_char delimiter ch then Ok (set_state START_FIELD (parse_save_field r))
          else parse_add_char r ch
      end
  | IN_QUOTED_FIELD =>
      match c with
      | None => Ok r
      | Some ch =>
          if is_char quotechar ch then Ok (set_state QUOTE_IN_QUOTED_FIELD r)
          else parse_add_char r ch
      end
  | QUOTE_IN_QUOTED_FIELD =>
      match c with
      | None => Ok (set_state START_RECORD (parse_save_field r))
      | Some ch =>
          if is_char quotechar ch then
            do r' <- parse_add_char r ch; Ok (set_state IN_QUOTED_FIELD r')
          else if is_char delimiter ch then Ok (set_state START_FIELD (parse_save_field r))
          else if is_newline ch then Ok (set_state EAT_CRNL (parse_save_field r))
          else do r' <- parse_add_char r ch; Ok (set_state IN_FIELD r')
      end
  | EAT_CRNL =>
      match c with
      | None => Ok (set_state START_RECORD r)
      | Some ch => if is_newline ch then Ok r else Raise CsvError
      end
  end.

Fixpoint parse_chars (r : reader) (cs : list ascii) : result reader :=
  match cs with
  | [] => Ok r
  | c :: rest => do r' <- parse_process_char r (Some c); parse_chars r' rest
  end.

(** [next(csv.reader([line]))]: when the line ends inside a quoted field the
    reader asks for a second line, finds none and returns what it has. *)
Definition csv_reader_line (line : string) : result (list string) :=
  do r <- parse_chars (mk_reader START_RECORD [] "") (list_ascii_of_string line);
  do r <- parse_process_char r None;
  match state r with
  | START_RECORD => Ok (fields r)
  | st =>
      if nonempty (field r) || match st with IN_QUOTED_FIELD => true | _ => false end
      then Ok (fields (parse_save_field r))
      else Raise StopIteration
  end.

(** *** [parse_csv_file], on the lines the open file yields *)

Definition diagnostic : Type := Z * string * string.

Definition comment_message : string := "comment line, ignored for data parsing".

(** The body of the loop for line number [i] *)
Definition scan_line (i : Z) (raw : string) (acc : list dict * list diagnostic)
  : result (list dict * list diagnostic) :=
  let '(valids, errors) := acc in
  let line := rstrip_by (is_char LF) raw in
  if negb (nonempty (strip line)) then Ok (valids, errors)
  else if startswith_char "#" (lstrip line) then
    Ok (valids, errors ++ [(i, line, comment_message)])
  else
    match csv_reader_line line with
    | Raise _ => Ok (valids, errors ++ [(i, line, "malformed CSV line")])
    | Ok cells =>
        if match cells with
           | c0 :: _ => String.eqb (lower (strip c0)) "flight_id"
           | [] => false
           end
        then Ok (valids, errors)
        else
          do r <- validate_row cells;
          let '(valid, record, msgs) := r in
          if valid then Ok (valids ++ [record], errors)
          else Ok (valids, errors ++ [(i, line, join ", " msgs)])
    end.

Fixpoint scan_lines (i : Z) (lines : list string) (acc : list dict * list diagnostic)
  : result (list dict * list diagnostic) :=
  match lines with
  | [] => Ok acc
  | raw :: rest => do acc' <- scan_line i raw acc; scan_lines (i + 1) rest acc'
  end.

Definition parse_csv_file (lines : list string) : result (list dict * list diagnostic) :=
  scan_lines 1 lines ([], []).

(** *** [match_query] *)

(** [d.get(k)] and [d.get(k, default)] *)
Definition get (d : dict) (k : string) : value :=
  match dict_get k d with Some v => v | None => VNone end.

Definition get_default (d : dict) (k : string) (default : value) : value :=
  match dict_get k d with Some v => v | None => default end.

(** [d[k]] *)
Definition item (d : dict) (k : string) : result value :=
  match dict_get k d with Some v => Ok v | None => Raise KeyError end.

(** The loop over the three keys compared for equality *)
Fixpoint exact_matches (keys : list string) (rec query : dict) : bool :=
  match keys with
  | [] => true
  | key :: rest =>
      if dict_mem key query && negb (py_eq (get rec key) (get query key))
      then false
      else exact_matches rest rec query
  end.

(** The body of the loop: is [rec] appended to the results? *)
Definition match_record (q_dep q_arr : option datetime) (q_price : option float)
           (query rec : dict) : result bool :=
  if negb (exact_matches ["flight_id"; "origin"; "destination"] rec query) then Ok false
  else
    do dep_ok <-
      match q_dep with
      | Some qd =>
          do v <- item rec "departure_datetime";
          match parse_datetime v with
          | Some r_dep => Ok (negb (dt_lt r_dep qd))
          | None => Raise TypeError
          end
      | None => Ok true
      end;
    if negb dep_ok then Ok false
    else
      do arr_ok <-
        match q_arr with
        | Some qa =>
            do v <- item rec "arrival_datetime";
            match parse_datetime v with
            | Some r_arr => Ok (negb (dt_gt r_arr qa))
            | None => Raise TypeError
            end
        | None => Ok true
        end;
      if negb arr_ok then Ok false
      else
        match q_price with
        | Some qp =>
            do p <- float_of_value (get_default rec "price" (VInt 0));
            Ok (negb (float_gt p qp))
        | None => Ok true
        end.

Fixpoint match_loop (q_dep q_arr : option datetime) (q_price : option float)
         (query : dict) (db : list dict) (results : list dict) : result (list dict) :=
  match db with
  | [] => Ok results
  | rec :: rest =>
      do keep <- match_record q_dep q_arr q_price query rec;
      match_loop q_dep q_arr q_price query rest
                 (if keep then results ++ [rec] else results)
  end.

Definition match_query (db : list dict) (query : dict) : result (list dict) :=
  let q_dep :=
    if truthy (get query "departure_datetime")
    then parse_datetime (get query "departure_datetime") else None in
  let q_arr :=
    if truthy (get query "arrival_datetime")
    then parse_datetime (get query "arrival_datetime") else None in
  do q_price <-
    match get query "price" with
    | VNone => Ok None
    | v => do f <- float_of_value v; Ok (Some f)
    end;
  match_loop q_dep q_arr q_price query db [].

(** ** The specification's reading of the record validator

    The field validators of the specification, each on a trimmed value, and
    the list of reasons in the order the specification fixes. *)

Inductive field_name : Type :=
| F_flight_id
| F_origin
| F_destination
| F_departure
| F_arrival
| F_price.

Definition all_fields : list field_name :=
  [F_flight_id; F_origin; F_destination; F_departure; F_arrival; F_price].

Definition field_index (f : field_name) : nat :=
  match f with
  | F_flight_id => 0
  | F_origin => 1
  | F_destination => 2
  | F_departure => 3
  | F_arrival => 4
  | F_price => 5
  end.

(** The trimmed value of field [f] in a row *)
Definition cell (cells : list string) (f : field_name) : string :=
  strip (nth (field_index f) cells "").

Definition missing_reason (f : field_name) : string :=
  match f with
  | F_flight_id => "missing flight_id"
  | F_origin => "missing origin field"
  | F_destination => "missing destination field"
  | F_departure => "missing departure_datetime"
  | F_arrival => "missing arrival_datetime"
  | F_price => "missing price"
  end.

(** The format and positivity reasons that belong to a field *)
Definition format_reasons (f : field_name) : list string :=
  match f with
  | F_flight_id => ["flight_id length must be 2-8 alphanumeric characters";
                    "invalid flight_id format"]
  | F_origin => ["invalid origin code"]
  | F_destination => ["invalid destination code"]
  | F_departure => ["invalid departure datetime"]
  | F_arrival => ["invalid arrival datetime"]
  | F_price => ["invalid price format"; "negative or zero price value"]
  end.

Definition ordering_reason : string := "arrival before or equal to departure".

(** Identifier: 2 to 8 alphanumeric characters; a length outside 2-8 has its
    own message. *)
Definition identifier_check (v : string) : list string :=
  if all_in is_alnum v && (2 <=? String.length v)%nat && (String.length v <=? 8)%nat
  then []
  else if (String.length v <? 2)%nat || (8 <? String.length v)%nat
       then ["flight_id length must be 2-8 alphanumeric characters"]
       else ["invalid flight_id format"].

(** Airport code: exactly 3 upper-case letters *)
Definition airport_check (reason : string) (v : string) : list string :=
  if (String.length v =? 3)%nat && all_in is_upper v then [] else [reason].

(** Datetime: parseable as [YYYY-MM-DD HH:MM] *)
Definition datetime_check (reason : string) (v : string) : list string :=
  match strptime v with
  | Ok _ => []
  | Raise _ => [reason]
  end.

(** Price: parseable as a number, and not [<= 0] *)
Definition price_check (v : string) : list string :=
  match float_of_string v with
  | Raise _ => ["invalid price format"]
  | Ok p => if float_le p pos_zero then ["negative or zero price value"] else []
  end.

Definition field_check (f : field_name) (v : string) : list string :=
  match f with
  | F_flight_id => identifier_check v
  | F_origin => airport_check "invalid origin code" v
  | F_destination => airport_check "invalid destination code" v
  | F_departure => datetime_check "invalid departure datetime" v
  | F_arrival => datetime_check "invalid arrival datetime" v
  | F_price => price_check v
  end.

(** A non-blank value the field validator rejects *)
Definition field_invalid (f : field_name) (v : string) : bool :=
  match field_check f v with
  | [] => false
  | _ :: _ => true
  end.

Definition presence_check (f : field_name) (v : string) : list string :=
  if nonempty v then [] else [missing_reason f].

(** A format check contributes only for a value that is not blank. *)
Definition format_check (f : field_name) (v : string) : list string :=
  if nonempty v then field_check f v else [].

(** The cross-field rule, evaluated when both timestamps parse *)
Definition ordering_check (dep arr : string) : list string :=
  match strptime dep, strptime arr with
  | Ok d, Ok a => if dt_le a d then [ordering_reason] else []
  | _, _ => []
  end.

Definition expected_reasons (cells : list string) : list string :=
  flat_map (fun f => presence_check f (cell cells f)) all_fields
  ++ format_check F_flight_id (cell cells F_flight_id)
  ++ format_check F_origin (cell cells F_origin)
  ++ format_check F_destination (cell cells F_destination)
  ++ format_check F_departure (cell cells F_departure)
  ++ format_check F_arrival (cell cells F_arrival)
  ++ ordering_check (cell cells F_departure) (cell cells F_arrival)
  ++ format_check F_price (cell cells F_price).

(** The reasons [validate_row] reports for a row *)
Definition reported_reasons (cells : list string) : list string :=
  match validate_row cells with
  | Ok (_, _, errors) => errors
  | Raise _ => []
  end.

(** ** The specification's reading of the scanner and of the query matcher *)

(** The first character of a line that is not white space *)
Fixpoint first_non_space (s : string) : option ascii :=
  match s with
  | String c s' => if isspace c then first_non_space s' else Some c
  | EmptyString => None
  end.

Definition is_nan (f : float) : bool :=
  match f with S754_nan => true | _ => false end.

(** A record of the dataset as the data model has it: three strings, two
    canonical timestamps and a price that is a number. *)
Definition record_shape (rec : dict) : bool :=
  match dict_get "flight_id" rec, dict_get "origin" rec, dict_get "destination" rec,
        dict_get "departure_datetime" rec, dict_get "arrival_datetime" rec,
        dict_get "price" rec with
  | Some (VStr _), Some (VStr _), Some (VStr _), Some (VStr dep), Some (VStr arr), Some p =>
      is_some (parse_datetime (VStr dep)) && is_some (parse_datetime (VStr arr))
      && match float_of_value p with Ok f => negb (is_nan f) | Raise _ => false end
  | _, _, _, _, _, _ => false
  end.

(** A query whose constraint values can be read: timestamps are strings of
    the form [YYYY-MM-DD HH:MM], the price is a number. *)
Definition query_shape (query : dict) : bool :=
  match dict_get "departure_datetime" query with
  | None => true
  | Some v => is_some (parse_datetime v)
  end
  && match dict_get "arrival_datetime" query with
     | None => true
     | Some v => is_some (parse_datetime v)
     end
  && match dict_get "price" query with
     | None => true
     | Some v => match float_of_value v with Ok f => negb (is_nan f) | Raise _ => false end
     end.

(** Exact string equality of the record's field with the query's value *)
Definition equal_constraint (key : string) (query rec : dict) : bool :=
  match dict_get key query with
  | None => true
  | Some (VStr q) =>
      match dict_get key rec with
      | Some (VStr r) => String.eqb r q
      | _ => false
      end
  | Some _ => false
  end.

(** [record departure >= query departure] *)
Definition departure_constraint (query rec : dict) : bool :=
  match dict_get "departure_datetime" query with
  | None => true
  | Some q =>
      match parse_datetime q, parse_datetime (get rec "departure_datetime") with
      | Some qd, Some rd => dt_le qd rd
      | _, _ => false
      end
  end.

(** [record arrival <= query arrival] *)
Definition arrival_constraint (query rec : dict) : bool :=
  match dict_get "arrival_datetime" query with
  | None => true
  | Some q =>
      match parse_datetime q, parse_datetime (get rec "arrival_datetime") with
      | Some qa, Some ra => dt_le ra qa
      | _, _ => false
      end
  end.

(** [record price <= query price] *)
Definition price_constraint (query rec : dict) : bool :=
  match dict_get "price" query with
  | None => true
  | Some q =>
      match float_of_value q, float_of_value (get rec "price") with
      | Ok qp, Ok rp => float_le rp qp
      | _, _ => false
      end
  end.

Definition satisfies (query rec : dict) : bool :=
  equal_constraint "flight_id" query rec
  && equal_constraint "origin" query rec
  && equal_constraint "destination" query rec
  && departure_constraint query rec
  && arrival_constraint query rec
  && price_constraint query rec.

Definition recognized : list string :=
  ["flight_id"; "origin"; "destination";
   "departure_datetime"; "arrival_datetime"; "price"].

(** [query] without the key [k] *)
Definition dict_remove (k : string) (d : dict) : dict :=
  filter (fun kv => negb (String.eqb (fst kv) k)) d.

(** ** Auxiliary notions for the proofs *)

Fixpoint last_char (s : string) : option ascii :=
  match s with
  | EmptyString => None
  | String c EmptyString => Some c
  | String _ s' => last_char s'
  end.

(** A string that does not end in a character selected by [p] *)
Definition ends_clean (p : ascii -> bool) (s : string) : Prop :=
  match last_char s with
  | Some c => p c = false
  | None => True
  end.

(** What [match_query] computes before its loop, for a readable query *)
Definition parsed_bound (query : dict) (key : string) (q : option datetime) : Prop :=
  match dict_get key query with
  | None => q = None
  | Some v => exists d, parse_datetime v = Some d /\ q = Some d
  end.

Definition parsed_price (query : dict) (q : option float) : Prop :=
  match dict_get "price" query with
  | None => q = None
  | Some v => exists f, float_of_value v = Ok f /\ is_nan f = false /\ q = Some f
  end.

(** ** Sample data: the rows and records of the specification's examples *)

Definition sample_row : list string :=
  ["AB12"; "JFK"; "LAX"; "2024-01-01 08:00"; "2024-01-01 14:30"; "199.999"].

(** Its record; the price is the float [200.0]. *)
Definition sample_record : dict :=
  [("flight_id", VStr "AB12");
   ("origin", VStr "JFK");
   ("destination", VStr "LAX");
   ("departure_datetime", VStr "2024-01-01 08:00");
   ("arrival_datetime", VStr "2024-01-01 14:30");
   ("price", VFloat (S754_finite false 7036874417766400 (-45)))].

(** The same flight at a price of a tenth of a cent *)
Definition tiny_price_row : list string :=
  ["AB12"; "JFK"; "LAX"; "2024-01-01 08:00"; "2024-01-01 14:30"; "0.001"].

Definition tiny_price_record : dict :=
  [("flight_id", VStr "AB12");
   ("origin", VStr "JFK");
   ("destination", VStr "LAX");
   ("departure_datetime", VStr "2024-01-01 08:00");
   ("arrival_datetime", VStr "2024-01-01 14:30");
   ("price", VFloat (S754_zero false))].

(** The same flight with [nan] as its price *)
Definition nan_price_row : list string :=
  ["AB12"; "JFK"; "LAX"; "2024-01-01 08:00"; "2024-01-01 14:30"; "nan"].

Definition nan_price_record : dict :=
  [("flight_id", VStr "AB12");
   ("origin", VStr "JFK");
   ("destination", VStr "LAX");
   ("departure_datetime", VStr "2024-01-01 08:00");
   ("arrival_datetime", VStr "2024-01-01 14:30");
   ("price", VFloat S754_nan)].

(** Five cells only, the arrival before the departure *)
Definition five_cell_row : list string :=
  ["AB12"; "JFK"; "LAX"; "2024-01-01 08:00"; "2024-01-01 06:00"].

(** A record of a dataset document that has no price *)
Definition unpriced_record : dict :=
  [("flight_id", VStr "AB12");
   ("origin", VStr "JFK");
   ("destination", VStr "LAX");
   ("departure_datetime", VStr "2024-01-01 08:00");
   ("arrival_datetime", VStr "2024-01-01 14:30")].

(** Modelled from the spec: the rendering of a record back to a row, which
    the repository does not have. The five textual fields are rendered as
    they are stored; the price is rendered by a text [price_text], any text
    that reads back as the stored price. *)
Definition rendered_row (rec : dict) (price_text : string) : list string :=
  map (fun key => match dict_get key rec with
                  | Some (VStr s) => s
                  | _ => ""
                  end)
      ["flight_id"; "origin"; "destination";
       "departure_datetime"; "arrival_datetime"]
  ++ [price_text].

Definition renders_price (rec : dict) (price_text : string) : Prop :=
  exists f, dict_get "price" rec = Some (VFloat f)
            /\ float_of_string (strip price_text) = Ok f.

(** ** Notions for the further properties *)

(** The two digits [strftime] writes for a field *)
Definition pad2_chars (n : Z) : list ascii :=
  [digit_char (n / 10); digit_char (n mod 10)].

(** Does [rec], alone in a dataset, match the query? *)
Definition kept (query rec : dict) : bool :=
  match match_query [rec] query with
  | Ok (_ :: _) => true
  | _ => false
  end.

(** The price ceiling of a query, as [match_query] reads it before its loop *)
Definition query_price (query : dict) : result (option float) :=
  match get query "price" with
  | VNone => Ok None
  | v => do f <- float_of_value v; Ok (Some f)
  end.

(** A record that [validate_row] built from some row *)
Definition accepted (rec : dict) : Prop :=
  exists cells errs, validate_row cells = Ok (true, rec, errs).

(** The line number of a diagnostic *)
Definition line_no (x : diagnostic) : Z := fst (fst x).

(** The text of the line a diagnostic quotes *)
Definition line_text (x : diagnostic) : string := snd (fst x).

(** A character that has no special meaning for the reader of a line *)
Definition plain_char (c : ascii) : bool :=
  negb (is_char delimiter c || is_char quotechar c || is_newline c).

(** A cell without comma, quote or newline, not longer than the reader's
    limit for a field *)
Definition plain_cell (s : string) : bool :=
  all_in plain_char s && (N.of_nat (String.length s) <=? field_limit)%N.

Definition field_open (st : csv_state) : bool :=
  match st with
  | START_RECORD | START_FIELD | IN_FIELD => true
  | _ => false
  end.

(** *** [parse_folder]

    [glob.glob] gives the paths of the folder that end in [.csv], in the
    order of the directory listing; [read] gives the lines of the file at a
    path, or the exception of [open]. *)

(** [sorted] on strings, which Python compares code point by code point; an
    element is put before the first one that is not smaller, so that equal
    elements keep their order as in Python's stable sort. *)
Fixpoint insert_sorted (x : string) (l : list string) : list string :=
  match l with
  | [] => [x]
  | y :: rest => if String.leb x y then x :: l else y :: insert_sorted x rest
  end.

Fixpoint sorted (l : list string) : list string :=
  match l with
  | [] => []
  | x :: rest => insert_sorted x (sorted rest)
  end.

(** A diagnostic with the path of its file: [(path, ln, raw, msg)] *)
Definition folder_diagnostic : Type := string * Z * string * string.

(** The inner loop: [for (ln, raw, msg) in e: all_errors.append(...)] *)
Fixpoint tag_errors (path : string) (e : list diagnostic)
         (all_errors : list folder_diagnostic) : list folder_diagnostic :=
  match e with
  | [] => all_errors
  | (ln, raw, msg) :: rest =>
      tag_errors path rest (all_errors ++ [(path, ln, raw, msg)])
  end.

(** The loop over the sorted paths *)
Fixpoint folder_loop (read : string -> result (list string)) (paths : list string)
         (acc : list dict * list folder_diagnostic)
  : result (list dict * list folder_diagnostic) :=
  match paths with
  | [] => Ok acc
  | path :: rest =>
      do lines <- read path;
      do r <- parse_csv_file lines;
      folder_loop read rest (fst acc ++ fst r, tag_errors path (snd r) (snd acc))
  end.

Definition parse_folder (read : string -> result (list string))
           (globbed : list string)
  : result (list dict * list folder_diagnostic) :=
  folder_loop read (sorted globbed) ([], []).

(** [a <= b] on strings *)
Definition str_le (a b : string) : Prop := String.leb a b = true.

(** The path and the line number of a folder diagnostic *)
Definition path_of (x : folder_diagnostic) : string := fst (fst (fst x)).

Definition line_of (x : folder_diagnostic) : Z := snd (fst (fst x)).

(** The text of the line a folder diagnostic quotes *)
Definition text_of (x : folder_diagnostic) : string := snd (fst x).

(** The diagnostic of a file as the folder reports it *)
Definition tagged (path : string) (x : diagnostic) : folder_diagnostic :=
  (path, fst (fst x), snd (fst x), snd x).

(** What one file adds to the result of the folder *)
Definition file_part (read : string -> result (list string)) (path : string)
  : result (list dict * list folder_diagnostic) :=
  do lines <- read path;
  do r <- parse_csv_file lines;
  Ok (fst r, map (tagged path) (snd r)).

(** Ascending order of folder diagnostics: by path, then by line number *)
Definition diagnostic_before (a b : folder_diagnostic) : Prop :=
  (str_le (path_of a) (path_of b) /\ path_of a <> path_of b)
  \/ (path_of a = path_of b /\ line_of a < line_of b).

(** A folder of two files for the examples *)
Definition sample_folder (path : string) : result (list string) :=
  if String.eqb path "data/a.csv" then
    Ok ["flight_id,origin"; "AB12,JFK,LAX,2024-01-01 08:00,2024-01-01 14:30,199.999"]
  else if String.eqb path "data/b.csv" then
    Ok ["# late flights"; "A,jfk"]
  else Raise ValueError.


(** *** [run_queries]

    [qs] is the document that [json.load] read from the query file and [now]
    the minute that [datetime.now()] gives. The function writes the list of
    responses with [json.dump] and returns the name of the file; the model
    returns the name and the list. *)

(** The queries the loop runs over: a dict is put in a list of its own, a
    list gives its items, a string its characters, and no other document
    can be iterated. *)
Definition queries_of (qs : value) : result (list value) :=
  match qs with
  | VDict _ => Ok [qs]
  | VList l => Ok l
  | VStr s => Ok (map (fun c => VStr (String c "")) (list_ascii_of_string s))
  | VNone | VBool _ | VInt _ | VFloat _ => Raise TypeError
  end.

(** [match_query(db, q)] for a query of any type: only a dict has [get] *)
Definition match_query_any (db : list dict) (q : value) : result (list dict) :=
  match q with
  | VDict query => match_query db query
  | _ => Raise AttributeError
  end.

(** [{"query": q, "matches": matches}] *)
Definition response (q : value) (matches : list dict) : value :=
  VDict [("query", q); ("matches", VList (map VDict matches))].

Fixpoint responses_loop (db : list dict) (qs : list value) (responses : list value)
  : result (list value) :=
  match qs with
  | [] => Ok responses
  | q :: rest =>
      do matches <- match_query_any db q;
      responses_loop db rest (responses ++ [response q matches])
  end.

(** [s.replace(old, new)] for two characters *)
Fixpoint replace_char (old new : ascii) (s : string) : string :=
  match s with
  | EmptyString => EmptyString
  | String c rest =>
      String (if Ascii.eqb c old then new else c) (replace_char old new rest)
  end.

(** [dt.strftime("%Y%m%d_%H%M")] *)
Definition strftime_stamp (dt : datetime) : string :=
  (pad4 (year dt) ++ pad2 (month dt) ++ pad2 (day dt)
   ++ "_" ++ pad2 (hour dt) ++ pad2 (minute dt))%string.

Definition response_name (studentid name lastname : string) (now : datetime)
  : string :=
  let ts := strftime_stamp now in
  let safe_name := replace_char " " "_" name in
  let safe_last := replace_char " " "_" lastname in
  ("response_" ++ studentid ++ "_" ++ safe_name ++ "_" ++ safe_last
   ++ "_" ++ ts ++ ".json")%string.

Definition run_queries (db : list dict) (qs : value)
           (studentid name lastname : string) (now : datetime)
  : result (string * list value) :=
  do items <- queries_of qs;
  do responses <- responses_loop db items [];
  Ok (response_name studentid name lastname now, responses).

(** The answer to a query that the dataset can take: the records kept *)
Definition answer (db : list dict) (query : dict) : value :=
  response (VDict query) (filter (kept query) db).

(** A string without a blank *)
Definition no_blank (s : string) : bool :=
  all_in (fun c => negb (is_char " " c)) s.

(** * Properties *)

(** ** Strings *)

Lemma rstrip_by_ends_clean (p : ascii -> bool) (s : string) :
  ends_clean p (rstrip_by p s).
Proof.
  unfold ends_clean.
  induction s as [|c s IH]; simpl; [exact I|].
  destruct (rstrip_by p s) as [|c' r] eqn:E.
  - destruct (p c) eqn:Hc; simpl; auto.
  - exact IH.
Qed.

Lemma strip_ends_clean (s : string) : ends_clean isspace (strip s).
Proof. apply rstrip_by_ends_clean. Qed.

Lemma isspace_not_LF (c : ascii) : isspace c = false -> (code c =? 10)%N = false.
Proof.
  intros H. destruct (code c =? 10)%N eqn:E; [|reflexivity].
  apply N.eqb_eq in E. unfold isspace, between in H. rewrite E in H.
  discriminate H.
Qed.

Lemma re_class_repeat_clean (cls : ascii -> bool) (s : string) :
  ends_clean isspace s ->
  forall lo hi,
    re_class_repeat cls lo hi s
    = ((lo <=? String.length s)%nat && (String.length s <=? hi)%nat && all_in cls s).
Proof.
  induction s as [|c s IH]; intros Hclean lo hi.
  - cbn. destruct lo; cbn; rewrite ?andb_true_r; reflexivity.
  - assert (Hd : at_dollar (String c s) = false).
    { destruct s as [|c' s']; [|reflexivity].
      simpl. apply isspace_not_LF. exact Hclean. }
    assert (Hs : ends_clean isspace s).
    { destruct s as [|c' s']; [exact I|exact Hclean]. }
    cbn [re_class_repeat]. rewrite Hd, andb_false_r, orb_false_r.
    destruct hi as [|hi].
    + cbn [String.length]. rewrite andb_false_r. reflexivity.
    + rewrite (IH Hs). cbn [String.length all_in].
      destruct lo as [|lo]; cbn [pred Nat.leb];
        destruct (cls c); cbn [andb]; rewrite ?andb_false_r; reflexivity.
Qed.

(** ** The record validator *)

Lemma append_if_app (c : bool) (m : string) (e : list string) :
  append_if c m e = e ++ (if c then [m] else []).
Proof. destruct c; simpl; [reflexivity|rewrite app_nil_r; reflexivity]. Qed.

Lemma if_if_app (A C : bool) (e : list string) (x y : string) :
  (if A then (if C then e ++ [x] else e ++ [y]) else e)
  = e ++ (if A then if C then [x] else [y] else []).
Proof. destruct A, C; simpl; rewrite ?app_nil_r; reflexivity. Qed.

Lemma parse_datetime_guard (s : string) :
  (if nonempty s then parse_datetime (VStr s) else None) = parse_datetime (VStr s).
Proof. destruct s; reflexivity. Qed.

Lemma parse_datetime_str (s : string) :
  parse_datetime (VStr s) = match strptime s with Ok d => Some d | Raise _ => None end.
Proof. unfold parse_datetime. destruct (strptime s); reflexivity. Qed.

Lemma leb_leb_eqb (k n : nat) : ((k <=? n) && (n <=? k))%nat = (n =? k)%nat.
Proof.
  destruct (Nat.leb_spec k n), (Nat.leb_spec n k), (Nat.eqb_spec n k);
    simpl; try reflexivity; lia.
Qed.

(** Case analysis on the tests a piece of the reason list depends on *)
Ltac split_atoms :=
  repeat match goal with
         | |- context [nonempty ?s] => destruct (nonempty s)
         | |- context [all_in ?c ?s] => destruct (all_in c s)
         | |- context [Nat.ltb ?a ?b] => destruct (Nat.ltb a b)
         | |- context [Nat.leb ?a ?b] => destruct (Nat.leb a b)
         | |- context [Nat.eqb ?a ?b] => destruct (Nat.eqb a b)
         | |- context [dt_le ?a ?b] => destruct (dt_le a b)
         | |- context [float_le ?a ?b] => destruct (float_le a b)
         end.

(** Two concatenations of the same length are compared piece by piece. *)
Ltac same_pieces :=
  rewrite <- ?app_assoc, ?app_nil_r; cbn [app];
  repeat first
    [ apply (f_equal2 (@app string)); [split_atoms; reflexivity|]
    | apply (f_equal2 (@cons string)); [reflexivity|] ];
  try (split_atoms; reflexivity).

(** From an empty concatenation, what each piece says *)
Ltac nil_pieces :=
  repeat match goal with
         | H : _ ++ _ = [] |- _ => apply app_eq_nil in H; destruct H
         end;
  repeat match goal with
         | H : (if ?b then _ else _) = [] |- _ =>
             destruct b eqn:?; try discriminate H
         | H : [] = [] |- _ => clear H
         end.

(** The validator on a row of six cells or more: the reasons are the
    expected ones, and without a reason the record is built from the parsed
    values. *)
Lemma validate_row_six (c0 c1 c2 c3 c4 c5 : string) (rest : list string) :
  let cells := c0 :: c1 :: c2 :: c3 :: c4 :: c5 :: rest in
  match expected_reasons cells with
  | [] =>
      exists d a p,
        strptime (cell cells F_departure) = Ok d
        /\ strptime (cell cells F_arrival) = Ok a
        /\ dt_le a d = false
        /\ float_of_string (cell cells F_price) = Ok p
        /\ float_le p pos_zero = false
        /\ validate_row cells =
           (do rounded <- round_ndigits p 2;
            Ok (true,
                [("flight_id", VStr (cell cells F_flight_id));
                 ("origin", VStr (cell cells F_origin));
                 ("destination", VStr (cell cells F_destination));
                 ("departure_datetime", VStr (strftime d));
                 ("arrival_datetime", VStr (strftime a));
                 ("price", VFloat rounded)],
                []))
  | _ :: _ => validate_row cells = Ok (false, [], expected_reasons cells)
  end.
Proof.
  intros cells.
  assert (HL : expected_reasons cells = expected_reasons cells) by reflexivity.
  revert HL. generalize (expected_reasons cells) at 1 3 4 as L.
  unfold cells, validate_row, expected_reasons, cell, RE_FLIGHT_ID, RE_AIRPORT.
  change (List.length (c0 :: c1 :: c2 :: c3 :: c4 :: c5 :: rest) <? 6)%nat with false.
  cbn [firstn map nth field_index all_fields flat_map].
  rewrite !(re_class_repeat_clean _ _ (strip_ends_clean _)), !leb_leb_eqb.
  rewrite !parse_datetime_guard, !parse_datetime_str.
  generalize (strip c0) (strip c1) (strip c2) (strip c3) (strip c4) (strip c5).
  intros fid origin dest dep arr price L.
  rewrite !append_if_app, !if_if_app.
  unfold presence_check, format_check, ordering_check, field_check,
    datetime_check, price_check, airport_check, identifier_check,
    ordering_reason, missing_reason.
  destruct (strptime dep) as [d|ed]; destruct (strptime arr) as [a|ea];
    destruct (nonempty price) eqn:Hp; destruct (float_of_string price) as [p|ep].
  all: rewrite ?append_if_app; cbn [is_some negb andb]; intros HL.
  all: match goal with
       | |- context [match ?E with [] => _ | _ :: _ => Ok (false, [], ?E) end] =>
           assert (HE : E = L) by (rewrite HL; same_pieces)
       end.
  all: rewrite HE; clear HE.
  all: destruct L as [|r L]; [|reflexivity].
  all: symmetry in HL; nil_pieces; try discriminate.
  exists d, a, p. repeat split; assumption || reflexivity.
Qed.

Lemma validate_row_reasons (cells : list string) :
  (6 <= List.length cells)%nat ->
  match expected_reasons cells with
  | [] =>
      exists d a p,
        strptime (cell cells F_departure) = Ok d
        /\ strptime (cell cells F_arrival) = Ok a
        /\ dt_le a d = false
        /\ float_of_string (cell cells F_price) = Ok p
        /\ float_le p pos_zero = false
        /\ validate_row cells =
           (do rounded <- round_ndigits p 2;
            Ok (true,
                [("flight_id", VStr (cell cells F_flight_id));
                 ("origin", VStr (cell cells F_origin));
                 ("destination", VStr (cell cells F_destination));
                 ("departure_datetime", VStr (strftime d));
                 ("arrival_datetime", VStr (strftime a));
                 ("price", VFloat rounded)],
                []))
  | _ :: _ => validate_row cells = Ok (false, [], expected_reasons cells)
  end.
Proof.
  intros H.
  destruct cells as [|c0 [|c1 [|c2 [|c3 [|c4 [|c5 rest]]]]]];
    simpl in H; try lia.
  apply validate_row_six.
Qed.

(** An invalid row reports the expected reasons and no record. *)
Lemma validate_row_invalid (cells : list string) :
  (6 <= List.length cells)%nat ->
  expected_reasons cells <> [] ->
  validate_row cells = Ok (false, [], expected_reasons cells).
Proof.
  intros H Hne. pose proof (validate_row_reasons cells H) as R.
  destruct (expected_reasons cells); [contradiction|exact R].
Qed.

Lemma validate_row_rejects (cells : list string) (record : dict) (errs : list string) :
  (6 <= List.length cells)%nat ->
  validate_row cells = Ok (false, record, errs) ->
  record = [] /\ errs = expected_reasons cells /\ errs <> [].
Proof.
  intros H E. pose proof (validate_row_reasons cells H) as R.
  destruct (expected_reasons cells) as [|r L].
  - destruct R as (d & a & p & _ & _ & _ & _ & _ & R). rewrite R in E.
    destruct (round_ndigits p 2); discriminate E.
  - rewrite R in E. injection E as <- <-. repeat split. discriminate.
Qed.

Lemma reported_reasons_expected (cells : list string) :
  (6 <= List.length cells)%nat ->
  reported_reasons cells = expected_reasons cells.
Proof.
  intros H. unfold reported_reasons.
  pose proof (validate_row_reasons cells H) as R.
  destruct (expected_reasons cells) as [|r L].
  - destruct R as (d & a & p & _ & _ & _ & _ & _ & R). rewrite R.
    destruct (round_ndigits p 2); reflexivity.
  - rewrite R. reflexivity.
Qed.

(** *** Which reasons a check can give *)

Lemma in_presence_check (f : field_name) (v r : string) :
  In r (presence_check f v) -> r = missing_reason f /\ v = "".
Proof.
  unfold presence_check. destruct v; simpl; [|tauto].
  intros [H|[]]. split; congruence.
Qed.

Lemma field_check_sub (f : field_name) (v r : string) :
  In r (field_check f v) -> In r (format_reasons f).
Proof.
  destruct f; unfold field_check, identifier_check, airport_check,
    datetime_check, price_check, format_reasons; split_atoms;
    try destruct (strptime v); try destruct (float_of_string v);
    split_atoms; simpl; tauto.
Qed.

Lemma in_format_check (f : field_name) (v r : string) :
  In r (format_check f v) ->
  In r (format_reasons f) /\ v <> "" /\ field_invalid f v = true.
Proof.
  unfold format_check, field_invalid. destruct v as [|c v]; simpl; [tauto|].
  intros H. split; [exact (field_check_sub _ _ _ H)|]. split; [discriminate|].
  destruct (field_check f (String c v)); [destruct H|reflexivity].
Qed.

Lemma in_ordering_check (dep arr r : string) :
  In r (ordering_check dep arr) ->
  r = ordering_reason
  /\ exists d a, strptime dep = Ok d /\ strptime arr = Ok a /\ dt_le a d = true.
Proof.
  unfold ordering_check.
  destruct (strptime dep) as [d|]; [|intros []].
  destruct (strptime arr) as [a|]; [|intros []].
  destruct (dt_le a d) eqn:E; [|intros []].
  intros [H|[]]. split; [congruence|]. exists d, a. auto.
Qed.

Lemma in_expected_reasons (cells : list string) (r : string) :
  In r (expected_reasons cells) <->
  (exists f, In r (presence_check f (cell cells f)))
  \/ (exists f, In r (format_check f (cell cells f)))
  \/ In r (ordering_check (cell cells F_departure) (cell cells F_arrival)).
Proof.
  unfold expected_reasons. cbn [flat_map all_fields].
  rewrite !in_app_iff. split.
  - intros H. simpl in H.
    repeat match goal with
           | H : _ \/ _ |- _ => destruct H as [H|H]
           | H : False |- _ => destruct H
           end; eauto.
  - intros [[f H]|[[f H]|H]]; [destruct f ..|]; tauto.
Qed.

(** *** The reasons are pairwise different texts *)

Lemma missing_reason_inj (f f' : field_name) :
  missing_reason f = missing_reason f' -> f = f'.
Proof. destruct f, f'; simpl; intros H; reflexivity || discriminate H. Qed.

Lemma missing_not_format (f f' : field_name) :
  ~ In (missing_reason f) (format_reasons f').
Proof. destruct f, f'; simpl; intuition discriminate. Qed.

Lemma missing_not_ordering (f : field_name) : missing_reason f <> ordering_reason.
Proof. destruct f; discriminate. Qed.

Lemma ordering_not_format (f : field_name) : ~ In ordering_reason (format_reasons f).
Proof. destruct f; simpl; intuition discriminate. Qed.

Lemma format_reasons_disjoint (f f' : field_name) (r : string) :
  In r (format_reasons f) -> In r (format_reasons f') -> f = f'.
Proof.
  destruct f, f'; simpl; intros H H'; try reflexivity; exfalso;
    repeat match goal with
           | H : _ \/ _ |- _ => destruct H as [H|H]
           | H : False |- _ => destruct H
           end; subst; discriminate.
Qed.

Lemma count_presence_same (f : field_name) (v : string) :
  count_occ string_dec (presence_check f v) (missing_reason f)
  = if nonempty v then 0%nat else 1%nat.
Proof.
  unfold presence_check. destruct v; simpl; [|reflexivity].
  destruct (string_dec (missing_reason f) (missing_reason f)); congruence.
Qed.

Lemma count_presence_other (f f' : field_name) (v : string) :
  f <> f' ->
  count_occ string_dec (presence_check f' v) (missing_reason f) = 0%nat.
Proof.
  intros Hne. apply count_occ_not_In. intros H.
  apply in_presence_check in H. destruct H as [H _].
  apply missing_reason_inj in H. congruence.
Qed.

Lemma count_missing_expected (cells : list string) (f : field_name) :
  count_occ string_dec (expected_reasons cells) (missing_reason f)
  = if nonempty (cell cells f) then 0%nat else 1%nat.
Proof.
  unfold expected_reasons. cbn [flat_map all_fields].
  rewrite !count_occ_app.
  rewrite !(proj1 (count_occ_not_In string_dec (format_check _ _) _)).
  2-7: intros H; apply in_format_check in H; destruct H as [H _];
       exact (missing_not_format _ _ H).
  rewrite (proj1 (count_occ_not_In string_dec (ordering_check _ _) _)).
  2: { intros H. apply in_ordering_check in H. destruct H as [H _].
       exact (missing_not_ordering _ H). }
  destruct f;
    rewrite count_presence_same, !count_presence_other by discriminate;
    simpl; destruct (nonempty _); reflexivity.
Qed.

Lemma reported_reasons_of_result (cells : list string)
      (valid : bool) (record : dict) (errs : list string) :
  validate_row cells = Ok (valid, record, errs) -> reported_reasons cells = errs.
Proof. unfold reported_reasons. intros ->. reflexivity. Qed.

Lemma parse_datetime_some (s : string) (d : datetime) :
  parse_datetime (VStr s) = Some d <-> strptime s = Ok d.
Proof.
  rewrite parse_datetime_str. destruct (strptime s); split; congruence.
Qed.

Lemma parse_datetime_none (s : string) :
  parse_datetime (VStr s) = None <-> forall d, strptime s <> Ok d.
Proof.
  rewrite parse_datetime_str. destruct (strptime s) as [d|e]; split.
  - discriminate.
  - intros H. destruct (H d eq_refl).
  - discriminate.
  - reflexivity.
Qed.

Lemma ordering_in_expected (cells : list string) :
  In ordering_reason (expected_reasons cells) <->
  exists d a, strptime (cell cells F_departure) = Ok d
              /\ strptime (cell cells F_arrival) = Ok a
              /\ dt_le a d = true.
Proof.
  rewrite in_expected_reasons. split.
  - intros [[f H]|[[f H]|H]].
    + apply in_presence_check in H. destruct H as [H _].
      symmetry in H. destruct (missing_not_ordering _ H).
    + apply in_format_check in H. destruct H as [H _].
      destruct (ordering_not_format _ H).
    + apply in_ordering_check in H. tauto.
  - intros (d & a & Hd & Ha & Hle). right; right.
    unfold ordering_check. rewrite Hd, Ha, Hle. left. reflexivity.
Qed.

Lemma validate_row_short (cells : list string) :
  (List.length cells < 6)%nat ->
  validate_row cells = Ok (false, [], ["missing required fields"]).
Proof.
  intros H. unfold validate_row.
  rewrite (proj2 (Nat.ltb_lt _ _) H). reflexivity.
Qed.

(** ** C5: a row with fewer than 6 cells *)

(** C5. For every raw row with fewer than 6 cells, whatever the cells hold,
    validation fails with the single reason [missing required fields]: no
    record is produced and no field-level check adds a reason. *)
Theorem short_row_single_reason (cells : list string) :
  (List.length cells < 6)%nat ->
  validate_row cells = Ok (false, [], ["missing required fields"]).
Proof. exact (validate_row_short cells). Qed.

Lemma short_row_single_reason_witness :
  (List.length ["A"; "jfk"; "LAX"; "2024-01-01 08:00"; "x"] < 6)%nat
  /\ validate_row ["A"; "jfk"; "LAX"; "2024-01-01 08:00"; "x"]
     = Ok (false, [], ["missing required fields"]).
Proof.
  split; [simpl; lia|].
  apply (short_row_single_reason ["A"; "jfk"; "LAX"; "2024-01-01 08:00"; "x"]).
  simpl; lia.
Defined.

(** ** C8: the order of the reasons *)

(** C8. For every row with at least 6 cells that is invalid, the reason list
    is exactly the concatenation, in this order, of the presence reasons of
    the six fields, the identifier format reason, the origin and destination
    format reasons, the departure and arrival parse reasons, the ordering
    reason and the price reason, every check contributing whether or not an
    earlier one failed; and a row with such a reason is invalid. *)
Theorem reasons_in_fixed_order (cells : list string) :
  (6 <= List.length cells)%nat ->
  (forall record errs,
      validate_row cells = Ok (false, record, errs) ->
      errs = expected_reasons cells /\ errs <> [] /\ record = [])
  /\ (expected_reasons cells <> [] ->
      validate_row cells = Ok (false, [], expected_reasons cells)).
Proof.
  intros H. split.
  - intros record errs E.
    destruct (validate_row_rejects cells record errs H E) as (A & B & C). auto.
  - apply validate_row_invalid. exact H.
Qed.

Lemma reasons_in_fixed_order_witness :
  (6 <= List.length
          [" "; "jfk"; "LAXX"; "x"; "2024-01-01 14:30"; "-1"; "extra"])%nat
  /\ validate_row [" "; "jfk"; "LAXX"; "x"; "2024-01-01 14:30"; "-1"; "extra"]
     = Ok (false, [],
           ["missing flight_id"; "invalid origin code";
            "invalid destination code"; "invalid departure datetime";
            "negative or zero price value"]).
Proof.
  split; [simpl; lia|].
  refine (proj2 (reasons_in_fixed_order
                   [" "; "jfk"; "LAXX"; "x"; "2024-01-01 14:30"; "-1"; "extra"] _) _).
  - simpl; lia.
  - vm_compute. discriminate.
Defined.

(** ** C7: a blank field gives its missing-field reason and nothing else *)

(** C7. For every row with at least 6 cells and every field: when the
    trimmed value is blank the reasons hold the field's missing-field reason
    exactly once and none of its format or positivity reasons; a format or
    positivity reason of the field is reported only when the trimmed value is
    not blank and the field validator rejects it, and then every reason of
    the validator is reported; a value that is not blank is never reported
    missing. *)
Theorem blank_field_reasons (cells : list string) (f : field_name) :
  (6 <= List.length cells)%nat ->
  (cell cells f = "" ->
   count_occ string_dec (reported_reasons cells) (missing_reason f) = 1%nat
   /\ forall r, In r (format_reasons f) -> ~ In r (reported_reasons cells))
  /\ (forall r, In r (format_reasons f) -> In r (reported_reasons cells) ->
                cell cells f <> "" /\ field_invalid f (cell cells f) = true)
  /\ (cell cells f <> "" ->
      ~ In (missing_reason f) (reported_reasons cells)
      /\ forall r, In r (field_check f (cell cells f)) ->
                   In r (reported_reasons cells)).
Proof.
  intros H. rewrite (reported_reasons_expected cells H).
  assert (Only : forall r, In r (format_reasons f) ->
                           In r (expected_reasons cells) ->
                           cell cells f <> "" /\ field_invalid f (cell cells f) = true).
  { intros r Hr Hin. apply in_expected_reasons in Hin.
    destruct Hin as [[f' Hin]|[[f' Hin]|Hin]].
    - apply in_presence_check in Hin. destruct Hin as [-> _].
      destruct (missing_not_format _ _ Hr).
    - apply in_format_check in Hin. destruct Hin as (Hr' & Hv & Hinv).
      rewrite (format_reasons_disjoint _ _ _ Hr Hr'). auto.
    - apply in_ordering_check in Hin. destruct Hin as [-> _].
      destruct (ordering_not_format _ Hr). }
  split; [|split].
  - intros Hv. split.
    + rewrite count_missing_expected, Hv. reflexivity.
    + intros r Hr Hin. destruct (Only r Hr Hin) as [Hne _]. contradiction.
  - exact Only.
  - intros Hv. split.
    + apply (count_occ_not_In string_dec). rewrite count_missing_expected.
      destruct (cell cells f); [contradiction|reflexivity].
    + intros r Hr. apply in_expected_reasons. right; left. exists f.
      unfold format_check. destruct (cell cells f); [contradiction|exact Hr].
Qed.

Lemma blank_field_reasons_witness :
  (6 <= List.length [" "; "jfk"; "LAX"; "x"; "2024-01-01 14:30"; ""])%nat
  /\ count_occ string_dec
       (reported_reasons [" "; "jfk"; "LAX"; "x"; "2024-01-01 14:30"; ""])
       (missing_reason F_flight_id) = 1%nat.
Proof.
  split; [simpl; lia|].
  refine (proj1 (proj1 (blank_field_reasons
                          [" "; "jfk"; "LAX"; "x"; "2024-01-01 14:30"; ""]
                          F_flight_id _) _)).
  - simpl; lia.
  - reflexivity.
Defined.

(** ** C6: the cross-field ordering rule *)

(** C6 fails as stated on a row of five cells: both timestamps parse and
    the arrival is before the departure, yet the only reason is the one for
    the missing fields. *)
Lemma ordering_reason_five_cells :
  parse_datetime (VStr (cell five_cell_row F_departure))
  = Some (mk_datetime 2024 1 1 8 0)
  /\ parse_datetime (VStr (cell five_cell_row F_arrival))
     = Some (mk_datetime 2024 1 1 6 0)
  /\ dt_le (mk_datetime 2024 1 1 6 0) (mk_datetime 2024 1 1 8 0) = true
  /\ validate_row five_cell_row = Ok (false, [], ["missing required fields"])
  /\ ~ (exists errs, validate_row five_cell_row = Ok (false, [], errs)
                     /\ In ordering_reason errs).
Proof.
  repeat split; try reflexivity.
  intros (errs & E & Hin). vm_compute in E. injection E as <-.
  destruct Hin as [H|[]]. discriminate H.
Qed.

(** C6 (amended). For every row with at least 6 cells whose trimmed
    departure and arrival both parse as [YYYY-MM-DD HH:MM], the row is
    invalid with the ordering reason if and only if arrival <= departure
    (equal is invalid, strictly later gives no ordering reason); when either
    timestamp does not parse, the ordering reason is not among the
    reasons. *)
Theorem ordering_reason_iff (cells : list string) :
  (6 <= List.length cells)%nat ->
  (forall d a,
      parse_datetime (VStr (cell cells F_departure)) = Some d ->
      parse_datetime (VStr (cell cells F_arrival)) = Some a ->
      ((exists errs, validate_row cells = Ok (false, [], errs)
                     /\ In ordering_reason errs)
       <-> dt_le a d = true))
  /\ (parse_datetime (VStr (cell cells F_departure)) = None
      \/ parse_datetime (VStr (cell cells F_arrival)) = None ->
      forall valid record errs,
        validate_row cells = Ok (valid, record, errs) ->
        ~ In ordering_reason errs).
Proof.
  intros H. split.
  - intros d a Hd Ha.
    apply parse_datetime_some in Hd. apply parse_datetime_some in Ha. split.
    + intros (errs & E & Hin).
      destruct (validate_row_rejects cells [] errs H E) as (_ & -> & _).
      apply ordering_in_expected in Hin.
      destruct Hin as (d' & a' & Hd' & Ha' & Hle). congruence.
    + intros Hle.
      assert (Hin : In ordering_reason (expected_reasons cells)).
      { apply ordering_in_expected. exists d, a. auto. }
      exists (expected_reasons cells). split; [|exact Hin].
      apply validate_row_invalid; [exact H|].
      intros Hnil. rewrite Hnil in Hin. destruct Hin.
  - intros Hnone valid record errs E Hin.
    apply reported_reasons_of_result in E.
    rewrite (reported_reasons_expected cells H) in E. rewrite <- E in Hin.
    apply ordering_in_expected in Hin.
    destruct Hin as (d & a & Hd & Ha & _).
    destruct Hnone as [Hn|Hn];
      rewrite parse_datetime_none in Hn; eapply Hn; eassumption.
Qed.

Lemma ordering_reason_iff_witness :
  (6 <= List.length
          ["AB12"; "JFK"; "LAX"; "2024-01-01 08:00"; "2024-01-01 08:00"; "50"])%nat
  /\ exists errs,
      validate_row
        ["AB12"; "JFK"; "LAX"; "2024-01-01 08:00"; "2024-01-01 08:00"; "50"]
      = Ok (false, [], errs)
      /\ In ordering_reason errs.
Proof.
  split; [simpl; lia|].
  refine (proj2 (proj1 (ordering_reason_iff
                          ["AB12"; "JFK"; "LAX"; "2024-01-01 08:00";
                           "2024-01-01 08:00"; "50"] _)
                   (mk_datetime 2024 1 1 8 0) (mk_datetime 2024 1 1 8 0) _ _) _).
  - simpl; lia.
  - reflexivity.
  - reflexivity.
  - reflexivity.
Defined.

(** ** The scanner *)

Lemma first_non_space_lstrip (s : string) (c : ascii) :
  first_non_space s = Some c ->
  isspace c = false /\ exists rest, lstrip s = String c rest.
Proof.
  induction s as [|a s IH]; simpl; [discriminate|].
  destruct (isspace a) eqn:E; [exact IH|].
  intros H. injection H as <-. split; [exact E|]. exists s. reflexivity.
Qed.

Lemma rstrip_by_keeps_head (p : ascii -> bool) (c : ascii) (s : string) :
  p c = false -> exists rest, rstrip_by p (String c s) = String c rest.
Proof.
  intros H. simpl. destruct (rstrip_by p s) as [|c' r].
  - rewrite H. exists "". reflexivity.
  - exists (String c' r). reflexivity.
Qed.

Lemma rstrip_LF_first_non_space (raw : string) (c : ascii) :
  isspace c = false ->
  first_non_space raw = Some c ->
  first_non_space (rstrip_by (is_char LF) raw) = Some c.
Proof.
  intros Hc. induction raw as [|a s IH]; simpl; [discriminate|].
  destruct (isspace a) eqn:E.
  - intros H. specialize (IH H).
    destruct (rstrip_by (is_char LF) s) as [|c' r]; [discriminate IH|].
    simpl. rewrite E. exact IH.
  - intros H. injection H as ->.
    destruct (rstrip_by (is_char LF) s) as [|c' r].
    + assert (HLF : is_char LF c = false).
      { unfold is_char. destruct (Ascii.eqb c LF) eqn:Q; [|reflexivity].
        apply Ascii.eqb_eq in Q. subst c. discriminate Hc. }
      rewrite HLF. simpl. rewrite E. reflexivity.
    + simpl. rewrite E. reflexivity.
Qed.

(** A line whose first character that is not white space is [#] takes the
    comment branch of the loop. *)
Lemma scan_line_comment (i : Z) (raw : string) (valids : list dict)
      (errors : list diagnostic) :
  first_non_space raw = Some "#"%char ->
  scan_line i raw (valids, errors)
  = Ok (valids, errors ++ [(i, rstrip_by (is_char LF) raw, comment_message)]).
Proof.
  intros H.
  apply (rstrip_LF_first_non_space raw "#" eq_refl) in H.
  apply first_non_space_lstrip in H. destruct H as [_ [rest H]].
  unfold scan_line, strip, rstrip. rewrite H.
  destruct (rstrip_by_keeps_head isspace "#" rest eq_refl) as [rest' ->].
  reflexivity.
Qed.

(** What a line adds does not depend on what was collected before it. *)
Lemma scan_line_acc (i : Z) (raw : string) (valids : list dict)
      (errors : list diagnostic) :
  scan_line i raw (valids, errors)
  = (do b <- scan_line i raw ([], []);
     Ok (valids ++ fst b, errors ++ snd b)).
Proof.
  unfold scan_line.
  destruct (negb (nonempty (strip (rstrip_by (is_char LF) raw)))).
  2: destruct (startswith_char "#" (lstrip (rstrip_by (is_char LF) raw))).
  3: destruct (csv_reader_line (rstrip_by (is_char LF) raw)) as [cells|e].
  3: match goal with |- context [if ?b then _ else _] => destruct b end.
  4: destruct (validate_row cells) as [[[valid record] msgs]|e];
       [destruct valid|].
  all: cbn [bind fst snd app]; rewrite ?app_nil_r; reflexivity.
Qed.

Lemma scan_lines_acc (lines : list string) :
  forall (i : Z) (valids : list dict) (errors : list diagnostic),
    scan_lines i lines (valids, errors)
    = (do b <- scan_lines i lines ([], []);
       Ok (valids ++ fst b, errors ++ snd b)).
Proof.
  induction lines as [|raw rest IH]; intros i valids errors.
  - simpl. rewrite !app_nil_r. reflexivity.
  - cbn [scan_lines]. rewrite (scan_line_acc i raw valids errors).
    destruct (scan_line i raw ([], [])) as [[v1 e1]|e]; [|reflexivity].
    cbn [bind fst snd]. rewrite (IH (i + 1) (valids ++ v1) (errors ++ e1)).
    rewrite (IH (i + 1) v1 e1).
    destruct (scan_lines (i + 1) rest ([], [])) as [[v2 e2]|e]; [|reflexivity].
    cbn [bind fst snd]. rewrite !app_assoc. reflexivity.
Qed.

Lemma scan_lines_app (l1 l2 : list string) :
  forall (i : Z) (acc : list dict * list diagnostic),
    scan_lines i (l1 ++ l2) acc
    = (do acc' <- scan_lines i l1 acc;
       scan_lines (i + Z.of_nat (List.length l1)) l2 acc').
Proof.
  induction l1 as [|raw rest IH]; intros i acc.
  - simpl. rewrite Z.add_0_r. reflexivity.
  - cbn [app scan_lines List.length].
    destruct (scan_line i raw acc) as [acc'|e]; [|reflexivity].
    cbn [bind]. rewrite IH.
    replace (i + 1 + Z.of_nat (List.length rest))
      with (i + Z.of_nat (S (List.length rest))) by lia.
    reflexivity.
Qed.

(** *** The messages of the validator and the comment message *)

Lemma startswith_append (c : ascii) (x y : string) :
  x <> "" -> startswith_char c (x ++ y)%string = startswith_char c x.
Proof. destruct x; [contradiction|reflexivity]. Qed.

Lemma join_head (sep x : string) (rest : list string) (c : ascii) :
  x <> "" -> startswith_char c (join sep (x :: rest)) = startswith_char c x.
Proof.
  intros H. destruct rest; [reflexivity|].
  cbn [join]. apply startswith_append. exact H.
Qed.

Lemma expected_reason_head (cells : list string) (r : string) :
  In r (expected_reasons cells) -> r <> "" /\ startswith_char "c" r = false.
Proof.
  intros H. apply in_expected_reasons in H.
  destruct H as [[f H]|[[f H]|H]].
  - apply in_presence_check in H. destruct H as [-> _].
    destruct f; split; discriminate || reflexivity.
  - apply in_format_check in H. destruct H as [H _].
    destruct f; simpl in H;
      repeat match goal with
             | H : _ \/ _ |- _ => destruct H as [H|H]
             | H : False |- _ => destruct H
             end; subst r; split; discriminate || reflexivity.
  - apply in_ordering_check in H. destruct H as [-> _].
    split; discriminate || reflexivity.
Qed.

Lemma validator_message_not_comment (cells : list string)
      (valid : bool) (record : dict) (msgs : list string) :
  validate_row cells = Ok (valid, record, msgs) ->
  join ", " msgs <> comment_message.
Proof.
  intros E.
  destruct (Nat.ltb_spec (List.length cells) 6) as [Hlt|Hge].
  - rewrite (validate_row_short cells Hlt) in E. injection E as <- <- <-.
    discriminate.
  - apply reported_reasons_of_result in E.
    rewrite (reported_reasons_expected cells Hge) in E.
    destruct msgs as [|r rest]; [discriminate|].
    assert (Hr : In r (expected_reasons cells)) by (rewrite E; left; reflexivity).
    apply expected_reason_head in Hr. destruct Hr as [Hne Hc].
    intros Hj.
    assert (Hs : startswith_char "c" (join ", " (r :: rest)) = true)
      by (rewrite Hj; reflexivity).
    rewrite (join_head _ _ _ _ Hne) in Hs. congruence.
Qed.

(** ** C9: comment lines *)

(** C9. For every scanned line whose first character that is not white
    space is [#]: scanning the file is scanning the lines before it and the
    lines after it, no record is added for the line, and exactly one
    diagnostic is added in its place, with the line's number, its text and
    the message [comment line, ignored for data parsing]; that message is
    never the message of a validation error nor of a malformed line. *)
Theorem comment_line_diagnostic (before after : list string) (raw : string) :
  first_non_space raw = Some "#"%char ->
  let n := Z.of_nat (List.length before) + 1 in
  parse_csv_file (before ++ raw :: after)
  = (do a <- parse_csv_file before;
     do b <- scan_lines (n + 1) after ([], []);
     Ok (fst a ++ fst b,
         snd a ++ [(n, rstrip_by (is_char LF) raw, comment_message)] ++ snd b))
  /\ (forall cells valid record msgs,
         validate_row cells = Ok (valid, record, msgs) ->
         join ", " msgs <> comment_message)
  /\ "malformed CSV line" <> comment_message.
Proof.
  intros H n. split; [|split].
  - unfold parse_csv_file. rewrite scan_lines_app.
    destruct (scan_lines 1 before ([], [])) as [[v1 e1]|e]; [|reflexivity].
    cbn [bind scan_lines fst snd].
    rewrite (scan_line_comment _ raw v1 e1 H). cbn [bind].
    rewrite scan_lines_acc. unfold n.
    replace (1 + Z.of_nat (List.length before) + 1)
      with (Z.of_nat (List.length before) + 1 + 1) by lia.
    replace (1 + Z.of_nat (List.length before))
      with (Z.of_nat (List.length before) + 1) by lia.
    destruct (scan_lines _ after ([], [])) as [[v2 e2]|e]; [|reflexivity].
    cbn [bind fst snd]. rewrite <- app_assoc. reflexivity.
  - exact validator_message_not_comment.
  - discriminate.
Qed.

Lemma comment_line_diagnostic_witness :
  first_non_space "  # note" = Some "#"%char
  /\ parse_csv_file
       (["AB12,JFK,LAX,2024-01-01 08:00,2024-01-01 14:30,199.999"]
        ++ "  # note" :: ["A,jfk"])
     = (do a <- parse_csv_file
                  ["AB12,JFK,LAX,2024-01-01 08:00,2024-01-01 14:30,199.999"];
        do b <- scan_lines 3 ["A,jfk"] ([], []);
        Ok (fst a ++ fst b,
            snd a ++ [(2, "  # note", comment_message)] ++ snd b)).
Proof.
  split; [reflexivity|].
  exact (proj1 (comment_line_diagnostic
                  ["AB12,JFK,LAX,2024-01-01 08:00,2024-01-01 14:30,199.999"]
                  ["A,jfk"] "  # note" eq_refl)).
Defined.


(** ** The query matcher *)

Lemma lex_compare_antisym (a : list Z) :
  forall b, lex_compare b a = CompOpp (lex_compare a b).
Proof.
  induction a as [|x a IH]; intros [|y b]; simpl; try reflexivity.
  rewrite (Z.compare_antisym x y).
  destruct (x ?= y); simpl; auto.
Qed.

Lemma not_dt_lt (r q : datetime) : negb (dt_lt r q) = dt_le q r.
Proof.
  unfold dt_lt, dt_le, dt_compare.
  rewrite (lex_compare_antisym (dt_key r) (dt_key q)).
  destruct (lex_compare (dt_key r) (dt_key q)); reflexivity.
Qed.

Lemma not_dt_gt (r q : datetime) : negb (dt_gt r q) = dt_le r q.
Proof. unfold dt_gt. apply not_dt_lt. Qed.

Lemma SFcompare_antisym (a b : float) :
  SFcompare b a = option_map CompOpp (SFcompare a b).
Proof.
  destruct a as [sa|sa| |sa ma ea], b as [sb|sb| |sb mb eb];
    try destruct sa; try destruct sb; simpl; try reflexivity.
  all: rewrite (Z.compare_antisym ea eb); destruct (ea ?= eb); simpl;
    try reflexivity.
  all: rewrite (Pos.compare_cont_antisym ma mb Eq); simpl;
    rewrite ?CompOpp_involutive; reflexivity.
Qed.

(** Without a NaN, [not (p > q)] is [p <= q]. *)
Lemma not_float_gt (p q : float) :
  is_nan p = false -> is_nan q = false ->
  negb (float_gt p q) = float_le p q.
Proof.
  intros Hp Hq. unfold float_gt, float_le, SFltb, SFleb.
  rewrite (SFcompare_antisym p q).
  destruct (SFcompare p q) as [[]|] eqn:E; simpl; try reflexivity.
  destruct p, q; simpl in *; try discriminate;
    repeat match goal with b : bool |- _ => destruct b end; discriminate.
Qed.

Lemma zero_not_above (qp : float) :
  float_le pos_zero qp = true -> float_gt pos_zero qp = false.
Proof.
  destruct qp as [[]|[]| |[] m e]; simpl; intros H;
    reflexivity || discriminate H.
Qed.

(** A query value that is not true in a test does not parse either. *)
Lemma truthy_guard (v : value) :
  (if truthy v then parse_datetime v else None) = parse_datetime v.
Proof.
  destruct v as [|b|z|f|s|l|d]; simpl.
  - reflexivity.
  - destruct b; reflexivity.
  - destruct (negb (z =? 0)); reflexivity.
  - destruct (negb (float_eq f pos_zero)); reflexivity.
  - destruct s; reflexivity.
  - destruct l; reflexivity.
  - destruct d; reflexivity.
Qed.

(** *** The loop of [match_query] *)

Lemma match_loop_filter (q_dep q_arr : option datetime) (q_price : option float)
      (query : dict) (keep : dict -> bool) (db : list dict) :
  Forall (fun rec => match_record q_dep q_arr q_price query rec = Ok (keep rec)) db ->
  forall results,
    match_loop q_dep q_arr q_price query db results
    = Ok (results ++ filter keep db).
Proof.
  induction 1 as [|rec db Hrec _ IH]; intros results; simpl.
  - rewrite app_nil_r. reflexivity.
  - rewrite Hrec. cbn [bind]. rewrite IH.
    destruct (keep rec); [rewrite <- app_assoc|]; reflexivity.
Qed.

Lemma exact_matches_ext (rec q q' : dict) (keys : list string) :
  (forall key, In key keys -> dict_get key q = dict_get key q') ->
  exact_matches keys rec q = exact_matches keys rec q'.
Proof.
  induction keys as [|key keys IH]; intros H; simpl; [reflexivity|].
  unfold dict_mem, get. rewrite (H key (or_introl eq_refl)).
  rewrite IH; [reflexivity|]. intros k Hk. apply H. right. exact Hk.
Qed.

Lemma match_record_ext (q_dep q_arr : option datetime) (q_price : option float)
      (q q' rec : dict) :
  (forall key, In key ["flight_id"; "origin"; "destination"] ->
               dict_get key q = dict_get key q') ->
  match_record q_dep q_arr q_price q rec = match_record q_dep q_arr q_price q' rec.
Proof.
  intros H. unfold match_record.
  rewrite (exact_matches_ext rec q q' _ H). reflexivity.
Qed.

Lemma match_loop_ext (q_dep q_arr : option datetime) (q_price : option float)
      (q q' : dict) (db : list dict) :
  (forall key, In key ["flight_id"; "origin"; "destination"] ->
               dict_get key q = dict_get key q') ->
  forall results,
    match_loop q_dep q_arr q_price q db results
    = match_loop q_dep q_arr q_price q' db results.
Proof.
  intros H. induction db as [|rec db IH]; intros results; simpl; [reflexivity|].
  rewrite (match_record_ext _ _ _ q q' rec H).
  destruct (match_record q_dep q_arr q_price q' rec); [|reflexivity].
  apply IH.
Qed.

(** The result depends on the six recognized keys of the query only. *)
Lemma match_query_ext (db : list dict) (q q' : dict) :
  (forall key, In key recognized -> dict_get key q = dict_get key q') ->
  match_query db q = match_query db q'.
Proof.
  intros H. unfold match_query, get.
  rewrite !(H "departure_datetime"), !(H "arrival_datetime"), !(H "price")
    by (simpl; tauto).
  destruct (match match dict_get "price" q' with Some v => v | None => VNone end with
            | VNone => Ok None
            | _ => _
            end); [|reflexivity].
  cbn [bind]. apply match_loop_ext.
  intros key Hk. apply H. simpl in *. tauto.
Qed.

(** *** The loop body on a record of the data model *)

Lemma record_shape_inv (rec : dict) :
  record_shape rec = true ->
  exists fid origin dest dep arr p rd ra f,
    dict_get "flight_id" rec = Some (VStr fid)
    /\ dict_get "origin" rec = Some (VStr origin)
    /\ dict_get "destination" rec = Some (VStr dest)
    /\ dict_get "departure_datetime" rec = Some (VStr dep)
    /\ dict_get "arrival_datetime" rec = Some (VStr arr)
    /\ dict_get "price" rec = Some p
    /\ parse_datetime (VStr dep) = Some rd
    /\ parse_datetime (VStr arr) = Some ra
    /\ float_of_value p = Ok f
    /\ is_nan f = false.
Proof.
  unfold record_shape.
  destruct (dict_get "flight_id" rec) as [[| | | |fid| |]|];
    try (intros H; discriminate H).
  destruct (dict_get "origin" rec) as [[| | | |origin| |]|];
    try (intros H; discriminate H).
  destruct (dict_get "destination" rec) as [[| | | |dest| |]|];
    try (intros H; discriminate H).
  destruct (dict_get "departure_datetime" rec) as [[| | | |dep| |]|];
    try (intros H; discriminate H).
  destruct (dict_get "arrival_datetime" rec) as [[| | | |arr| |]|];
    try (intros H; discriminate H).
  destruct (dict_get "price" rec) as [p|]; try (intros H; discriminate H).
  destruct (parse_datetime (VStr dep)) as [rd|] eqn:Hrd;
    try (intros H; discriminate H).
  destruct (parse_datetime (VStr arr)) as [ra|] eqn:Hra;
    try (intros H; discriminate H).
  destruct (float_of_value p) as [f|] eqn:Hf; try (intros H; discriminate H).
  simpl. intros H. apply negb_true_iff in H.
  exists fid, origin, dest, dep, arr, p, rd, ra, f. repeat split; auto.
Qed.

Lemma exact_key (key r : string) (query rec : dict) :
  dict_get key rec = Some (VStr r) ->
  dict_mem key query && negb (py_eq (get rec key) (get query key))
  = negb (equal_constraint key query rec).
Proof.
  intros H. unfold dict_mem, get, equal_constraint. rewrite H.
  destruct (dict_get key query) as [v|]; [|reflexivity].
  destruct v; simpl; rewrite ?negb_involutive; reflexivity.
Qed.

Lemma exact_matches_shape (query rec : dict) (fid origin dest : string) :
  dict_get "flight_id" rec = Some (VStr fid) ->
  dict_get "origin" rec = Some (VStr origin) ->
  dict_get "destination" rec = Some (VStr dest) ->
  exact_matches ["flight_id"; "origin"; "destination"] rec query
  = equal_constraint "flight_id" query rec
    && equal_constraint "origin" query rec
    && equal_constraint "destination" query rec.
Proof.
  intros H1 H2 H3. cbn [exact_matches].
  rewrite (exact_key _ _ query rec H1), (exact_key _ _ query rec H2),
    (exact_key _ _ query rec H3).
  destruct (equal_constraint "flight_id" query rec),
    (equal_constraint "origin" query rec),
    (equal_constraint "destination" query rec); reflexivity.
Qed.

Lemma match_record_satisfies (query rec : dict)
      (q_dep q_arr : option datetime) (q_price : option float) :
  record_shape rec = true ->
  parsed_bound query "departure_datetime" q_dep ->
  parsed_bound query "arrival_datetime" q_arr ->
  parsed_price query q_price ->
  match_record q_dep q_arr q_price query rec = Ok (satisfies query rec).
Proof.
  unfold parsed_bound, parsed_price. intros Hrec Hdep Harr Hprice.
  destruct (record_shape_inv rec Hrec)
    as (fid & origin & dest & dep & arr & p & rd & ra & f
        & H1 & H2 & H3 & H4 & H5 & H6 & Hrd & Hra & Hf & Hnan).
  unfold match_record, satisfies.
  rewrite (exact_matches_shape query rec fid origin dest H1 H2 H3).
  destruct (equal_constraint "flight_id" query rec
            && equal_constraint "origin" query rec
            && equal_constraint "destination" query rec); [|reflexivity].
  cbn [negb andb].
  unfold departure_constraint, arrival_constraint, price_constraint,
    item, get, get_default.
  rewrite H4, H5, H6, Hrd, Hra, Hf.
  assert (Price : match q_price with
                  | Some qp =>
                      do p0 <- Ok f; Ok (negb (float_gt p0 qp))
                  | None => Ok true
                  end
                  = Ok match dict_get "price" query with
                       | Some q =>
                           match float_of_value q with
                           | Ok qp => float_le f qp
                           | Raise _ => false
                           end
                       | None => true
                       end).
  { destruct (dict_get "price" query) as [vp|].
    - destruct Hprice as (g & -> & Hg & ->). cbn [bind].
      rewrite (not_float_gt f g Hnan Hg). reflexivity.
    - rewrite Hprice. reflexivity. }
  assert (Arr : forall (k : result bool) (b : bool),
             k = Ok b ->
             (do arr_ok <-
                match q_arr with
                | Some qa =>
                    do v <- Ok (VStr arr);
                    match parse_datetime v with
                    | Some r_arr => Ok (negb (dt_gt r_arr qa))
                    | None => Raise TypeError
                    end
                | None => Ok true
                end;
              if negb arr_ok then Ok false else k)
             = Ok (match dict_get "arrival_datetime" query with
                   | Some q =>
                       match parse_datetime q with
                       | Some qa => dt_le ra qa
                       | None => false
                       end
                   | None => true
                   end && b)).
  { intros k b ->. destruct (dict_get "arrival_datetime" query) as [va|].
    - destruct Harr as (qa & -> & ->). cbn [bind]. rewrite Hra, not_dt_gt.
      destruct (dt_le ra qa); reflexivity.
    - rewrite Harr. reflexivity. }
  rewrite (Arr _ _ Price).
  destruct (dict_get "departure_datetime" query) as [vd|].
  - destruct Hdep as (qd & -> & ->). cbn [bind]. rewrite Hrd, not_dt_lt.
    destruct (dt_le qd rd); cbn [negb andb]; reflexivity.
  - rewrite Hdep. cbn [bind negb andb]. reflexivity.
Qed.


Lemma query_shape_parsed (query : dict) :
  query_shape query = true ->
  parsed_bound query "departure_datetime"
               (parse_datetime (get query "departure_datetime"))
  /\ parsed_bound query "arrival_datetime"
                  (parse_datetime (get query "arrival_datetime"))
  /\ exists q_price,
      match get query "price" with
      | VNone => Ok None
      | v => do f <- float_of_value v; Ok (Some f)
      end = Ok q_price
      /\ parsed_price query q_price.
Proof.
  unfold query_shape, parsed_bound, parsed_price, get. intros H.
  apply andb_prop in H. destruct H as [H Hp].
  apply andb_prop in H. destruct H as [Hd Ha].
  split; [|split].
  - destruct (dict_get "departure_datetime" query) as [v|]; [|reflexivity].
    destruct (parse_datetime v) as [d|]; [|discriminate Hd]. eauto.
  - destruct (dict_get "arrival_datetime" query) as [v|]; [|reflexivity].
    destruct (parse_datetime v) as [d|]; [|discriminate Ha]. eauto.
  - destruct (dict_get "price" query) as [v|]; [|exists None; auto].
    destruct (float_of_value v) as [f|] eqn:Hf; [|discriminate Hp].
    apply negb_true_iff in Hp. exists (Some f). split; [|eauto].
    destruct v; try discriminate Hf; cbn [bind]; rewrite ?Hf; reflexivity.
Qed.

Lemma match_query_shape (db : list dict) (query : dict) :
  Forall (fun rec => record_shape rec = true) db ->
  query_shape query = true ->
  match_query db query = Ok (filter (satisfies query) db).
Proof.
  intros Hdb Hq. unfold match_query. rewrite !truthy_guard.
  destruct (query_shape_parsed query Hq) as (Hd & Ha & q_price & -> & Hp).
  cbn [bind].
  rewrite (match_loop_filter _ _ _ query (satisfies query)); [reflexivity|].
  eapply Forall_impl; [|exact Hdb].
  intros rec Hrec. apply match_record_satisfies; assumption.
Qed.

Lemma match_query_empty (db : list dict) : match_query db [] = Ok db.
Proof.
  unfold match_query. cbn.
  assert (H : forall results,
             match_loop None None None [] db results = Ok (results ++ db)).
  { induction db as [|rec db IH]; intros results; simpl.
    - rewrite app_nil_r. reflexivity.
    - rewrite IH, <- app_assoc. reflexivity. }
  apply (H []).
Qed.

Lemma dict_get_cons_other (k key : string) (v : value) (d : dict) :
  k <> key -> dict_get key ((k, v) :: d) = dict_get key d.
Proof.
  intros H. simpl. destruct (String.eqb_spec k key); [contradiction|reflexivity].
Qed.

Lemma match_query_unrecognized (db : list dict) (query : dict)
      (k : string) (v : value) :
  ~ In k recognized ->
  match_query db ((k, v) :: query) = match_query db query.
Proof.
  intros H. apply match_query_ext. intros key Hk.
  apply dict_get_cons_other. intros ->. contradiction.
Qed.

Lemma dict_get_remove (k key : string) (d : dict) :
  dict_get key (dict_remove k d) = if String.eqb k key then None else dict_get key d.
Proof.
  unfold dict_remove. induction d as [|[k' v] d IH]; simpl.
  - destruct (String.eqb k key); reflexivity.
  - destruct (String.eqb_spec k' k) as [->|Hne]; simpl.
    + rewrite IH. destruct (String.eqb k key); reflexivity.
    + rewrite IH. destruct (String.eqb_spec k' key) as [->|Hne'].
      * destruct (String.eqb_spec k key); [congruence|reflexivity].
      * reflexivity.
Qed.

(** The price test of the loop, on a record without a price *)
Lemma match_record_no_price (q_dep q_arr : option datetime) (qp : float)
      (query rec : dict) :
  dict_get "price" rec = None ->
  float_le pos_zero qp = true ->
  match_record q_dep q_arr (Some qp) query rec
  = match_record q_dep q_arr None query rec.
Proof.
  intros Hrec Hqp. unfold match_record, get_default. rewrite Hrec.
  change (float_of_value (VInt 0)) with (Ok pos_zero).
  cbn [bind]. rewrite (zero_not_above qp Hqp). reflexivity.
Qed.

Lemma dict_get_app (key : string) (d d' : dict) :
  dict_get key (d ++ d')
  = match dict_get key d with Some v => Some v | None => dict_get key d' end.
Proof.
  induction d as [|[k v] d IH]; simpl; [reflexivity|].
  destruct (String.eqb k key); [reflexivity|exact IH].
Qed.

Lemma match_record_default_price (q_dep q_arr : option datetime)
      (q_price : option float) (query rec : dict) :
  dict_get "price" rec = None ->
  match_record q_dep q_arr q_price query rec
  = match_record q_dep q_arr q_price query (rec ++ [("price", VInt 0)]).
Proof.
  intros Hrec.
  assert (G : forall key, key <> "price" ->
                          dict_get key (rec ++ [("price", VInt 0)]) = dict_get key rec).
  { intros key Hk. rewrite dict_get_app.
    destruct (dict_get key rec); [reflexivity|].
    apply dict_get_cons_other. congruence. }
  unfold match_record, item, get_default, exact_matches, get.
  rewrite !G by discriminate.
  rewrite dict_get_app, Hrec. reflexivity.
Qed.

Lemma match_loop_no_price (q_dep q_arr : option datetime) (qp : float)
      (query : dict) (db : list dict) :
  Forall (fun rec => dict_get "price" rec = None) db ->
  float_le pos_zero qp = true ->
  forall results,
    match_loop q_dep q_arr (Some qp) query db results
    = match_loop q_dep q_arr None query db results.
Proof.
  intros Hdb Hqp. induction Hdb as [|rec db Hrec _ IH]; intros results; simpl.
  - reflexivity.
  - rewrite (match_record_no_price _ _ _ _ _ Hrec Hqp).
    destruct (match_record q_dep q_arr None query rec); [|reflexivity].
    apply IH.
Qed.

Lemma query_price_some (query : dict) (v : value) (qp : float) :
  dict_get "price" query = Some v ->
  float_of_value v = Ok qp ->
  match get query "price" with
  | VNone => Ok None
  | w => do f <- float_of_value w; Ok (Some f)
  end = Ok (Some qp).
Proof.
  unfold get. intros -> Hf.
  destruct v; try discriminate Hf; rewrite Hf; reflexivity.
Qed.

Lemma query_price_raise (query : dict) (v : value) (e : exn) :
  dict_get "price" query = Some v ->
  float_of_value v = Raise e ->
  v <> VNone ->
  match get query "price" with
  | VNone => Ok None
  | w => do f <- float_of_value w; Ok (Some f)
  end = Raise (A := option float) e.
Proof.
  unfold get. intros -> Hf Hv.
  destruct v; try contradiction; rewrite Hf; reflexivity.
Qed.

Lemma get_remove_same (k : string) (d : dict) : get (dict_remove k d) k = VNone.
Proof. unfold get. rewrite dict_get_remove, String.eqb_refl. reflexivity. Qed.

Lemma get_remove_other (k key : string) (d : dict) :
  k <> key -> get (dict_remove k d) key = get d key.
Proof.
  intros H. unfold get. rewrite dict_get_remove.
  destruct (String.eqb_spec k key); [contradiction|reflexivity].
Qed.

Lemma match_query_no_price (db : list dict) (query : dict) (v : value) (qp : float) :
  Forall (fun rec => dict_get "price" rec = None) db ->
  dict_get "price" query = Some v ->
  float_of_value v = Ok qp ->
  float_le pos_zero qp = true ->
  match_query db query = match_query db (dict_remove "price" query).
Proof.
  intros Hdb Hv Hf Hqp. unfold match_query.
  rewrite get_remove_same, !get_remove_other by discriminate.
  rewrite (query_price_some query v qp Hv Hf).
  cbn [bind]. rewrite (match_loop_no_price _ _ _ _ _ Hdb Hqp).
  apply match_loop_ext. intros key Hk. rewrite dict_get_remove.
  destruct (String.eqb_spec "price" key) as [<-|]; [|reflexivity].
  simpl in Hk. intuition discriminate.
Qed.

(** A query timestamp that does not parse is dropped without a word. *)
Lemma match_query_drops_departure (db : list dict) (query : dict) (v : value) :
  dict_get "departure_datetime" query = Some v ->
  parse_datetime v = None ->
  match_query db query = match_query db (dict_remove "departure_datetime" query).
Proof.
  intros Hv Hp. unfold match_query. rewrite !truthy_guard.
  rewrite get_remove_same, !get_remove_other by discriminate.
  replace (parse_datetime (get query "departure_datetime")) with (@None datetime)
    by (unfold get; rewrite Hv, Hp; reflexivity).
  change (parse_datetime VNone) with (@None datetime).
  match goal with |- bind ?x _ = _ => destruct x as [q_price|]; [|reflexivity] end.
  cbn [bind]. apply match_loop_ext. intros key Hk. rewrite dict_get_remove.
  destruct (String.eqb_spec "departure_datetime" key) as [<-|]; [|reflexivity].
  simpl in Hk. intuition discriminate.
Qed.

Lemma match_query_drops_arrival (db : list dict) (query : dict) (v : value) :
  dict_get "arrival_datetime" query = Some v ->
  parse_datetime v = None ->
  match_query db query = match_query db (dict_remove "arrival_datetime" query).
Proof.
  intros Hv Hp. unfold match_query. rewrite !truthy_guard.
  rewrite get_remove_same, !get_remove_other by discriminate.
  replace (parse_datetime (get query "arrival_datetime")) with (@None datetime)
    by (unfold get; rewrite Hv, Hp; reflexivity).
  change (parse_datetime VNone) with (@None datetime).
  match goal with |- bind ?x _ = _ => destruct x as [q_price|]; [|reflexivity] end.
  cbn [bind]. apply match_loop_ext. intros key Hk. rewrite dict_get_remove.
  destruct (String.eqb_spec "arrival_datetime" key) as [<-|]; [|reflexivity].
  simpl in Hk. intuition discriminate.
Qed.

(** A query price that [float] rejects makes the whole query raise. *)
Lemma match_query_price_raises (db : list dict) (query : dict) (v : value) (e : exn) :
  dict_get "price" query = Some v ->
  v <> VNone ->
  float_of_value v = Raise e ->
  match_query db query = Raise e.
Proof.
  intros Hv Hn Hf. unfold match_query.
  rewrite (query_price_raise query v e Hv Hf Hn). reflexivity.
Qed.

(** ** C4: what a query matches *)

(** C4 fails as stated on a record whose price is [nan], which the
    validator accepts: the price is not [<=] the ceiling of the query, yet
    the record is in the result, since the loop only drops a record whose
    price is [>] the ceiling; likewise every record passes a ceiling that is
    [nan]. A record without a departure makes a query on the departure
    raise. *)
Lemma match_query_nan_price :
  validate_row nan_price_row = Ok (true, nan_price_record, [])
  /\ match_query [nan_price_record] [("price", VInt 100)] = Ok [nan_price_record]
  /\ price_constraint [("price", VInt 100)] nan_price_record = false
  /\ satisfies [("price", VInt 100)] nan_price_record = false
  /\ match_query [sample_record] [("price", VStr "nan")] = Ok [sample_record]
  /\ satisfies [("price", VStr "nan")] sample_record = false
  /\ match_query [[("flight_id", VStr "AB12")]]
                 [("departure_datetime", VStr "2024-01-01 00:00")]
     = Raise KeyError.
Proof. repeat split; reflexivity. Qed.

(** C4 (amended). For every dataset of records of the data model (three
    strings, two timestamps that parse, a price that is a number and not
    NaN) and every query whose timestamps parse and whose price is a number
    and not NaN, the result of [match_query] is the dataset filtered, in
    dataset order and without removing duplicates, by the conjunction of the
    constraints present in the query: string equality for flight_id, origin
    and destination, record departure >= query departure, record arrival <=
    query arrival, record price <= query price; a key that is not recognized
    changes nothing; the empty query returns the whole dataset. *)
Theorem match_query_filters (db : list dict) (query : dict) :
  Forall (fun rec => record_shape rec = true) db ->
  query_shape query = true ->
  match_query db query = Ok (filter (satisfies query) db)
  /\ (forall rec, In rec (filter (satisfies query) db)
                  <-> In rec db /\ satisfies query rec = true)
  /\ (forall k v, ~ In k recognized ->
                  match_query db ((k, v) :: query)
                  = Ok (filter (satisfies query) db))
  /\ match_query db [] = Ok db.
Proof.
  intros Hdb Hq. split; [|split; [|split]].
  - apply match_query_shape; assumption.
  - intros rec. apply filter_In.
  - intros k v Hk. rewrite (match_query_unrecognized db query k v Hk).
    apply match_query_shape; assumption.
  - apply match_query_empty.
Qed.

Lemma match_query_filters_witness :
  Forall (fun rec => record_shape rec = true) [sample_record; sample_record]
  /\ query_shape [("origin", VStr "JFK"); ("price", VInt 250)] = true
  /\ match_query [sample_record; sample_record]
                 [("origin", VStr "JFK"); ("price", VInt 250)]
     = Ok [sample_record; sample_record].
Proof.
  assert (Hdb : Forall (fun rec => record_shape rec = true)
                       [sample_record; sample_record])
    by (repeat constructor).
  assert (Hq : query_shape [("origin", VStr "JFK"); ("price", VInt 250)] = true)
    by reflexivity.
  split; [exact Hdb|]. split; [exact Hq|].
  exact (proj1 (match_query_filters _ _ Hdb Hq)).
Defined.

(** ** C10: a record without a price *)

(** C10. In a dataset document whose records have no price field, the loop
    treats each record as it treats the record with the price 0 added, for
    every query; so a price ceiling that is not negative never excludes such
    a record, and the result of the query is that of the query without its
    price. *)
Theorem missing_price_counts_as_zero (db : list dict) (query : dict)
        (v : value) (qp : float) :
  Forall (fun rec => dict_get "price" rec = None) db ->
  dict_get "price" query = Some v ->
  float_of_value v = Ok qp ->
  float_le pos_zero qp = true ->
  (forall rec q_dep q_arr q_price,
      In rec db ->
      match_record q_dep q_arr q_price query rec
      = match_record q_dep q_arr q_price query (rec ++ [("price", VInt 0)]))
  /\ (forall rec q_dep q_arr,
         In rec db ->
         match_record q_dep q_arr (Some qp) query rec
         = match_record q_dep q_arr None query rec)
  /\ match_query db query = match_query db (dict_remove "price" query).
Proof.
  intros Hdb Hv Hf Hqp. pose proof Hdb as Hall.
  rewrite Forall_forall in Hall. split; [|split].
  - intros rec q_dep q_arr q_price Hin.
    apply match_record_default_price. apply Hall. exact Hin.
  - intros rec q_dep q_arr Hin.
    apply match_record_no_price; [apply Hall; exact Hin|exact Hqp].
  - exact (match_query_no_price db query v qp Hdb Hv Hf Hqp).
Qed.

Lemma missing_price_counts_as_zero_witness :
  Forall (fun rec => dict_get "price" rec = None) [unpriced_record]
  /\ float_le pos_zero pos_zero = true
  /\ match_query [unpriced_record] [("origin", VStr "JFK"); ("price", VInt 0)]
     = Ok [unpriced_record].
Proof.
  assert (Hdb : Forall (fun rec => dict_get "price" rec = None) [unpriced_record])
    by (repeat constructor).
  split; [exact Hdb|]. split; [reflexivity|].
  exact (proj2 (proj2 (missing_price_counts_as_zero
                         [unpriced_record]
                         [("origin", VStr "JFK"); ("price", VInt 0)]
                         (VInt 0) pos_zero Hdb eq_refl eq_refl eq_refl))).
Defined.

(** ** C1: a query value that cannot be parsed *)

(** C1. At a query whose departure_datetime is not a date, [match_query]
    raises nothing and returns what the empty query returns, though a date
    that parses and lies after the record's departure excludes the record;
    a price that [float] cannot read does raise. *)
Theorem unparseable_query_datetime_ignored :
  match_query [sample_record] [("departure_datetime", VStr "2024-13-40 25:61")]
  = Ok [sample_record]
  /\ match_query [sample_record] [] = Ok [sample_record]
  /\ match_query [sample_record] [("departure_datetime", VStr "2024-06-01 00:00")]
     = Ok []
  /\ match_query [sample_record] [("price", VStr "cheap")] = Raise ValueError.
Proof. repeat split; reflexivity. Qed.

(** ** C2: the stored price *)

(** C2. The row with the price [0.001] is accepted, its parsed price being
    above zero, and the record stores the price rounded to 2 decimals, which
    is [0.0] and not above zero. *)
Theorem tiny_price_stored_as_zero :
  validate_row tiny_price_row = Ok (true, tiny_price_record, [])
  /\ dict_get "price" tiny_price_record = Some (VFloat (S754_zero false))
  /\ float_gt (S754_zero false) pos_zero = false
  /\ exists p, float_of_string "0.001" = Ok p /\ float_gt p pos_zero = true.
Proof.
  repeat split; try reflexivity.
  eexists. split; reflexivity.
Qed.

(** ** C3: validate, render, validate again *)

Lemma float_of_string_empty : float_of_string "" = Raise ValueError.
Proof. reflexivity. Qed.

(** C3. The row with the price [0.001] is accepted with the stored price
    [0.0]; rendered back to a row, with any text that reads back as that
    stored price, it is rejected for its price: validating, rendering and
    validating again does not give the record back. *)
Theorem rounded_zero_price_fails_revalidation (price_text : string) :
  renders_price tiny_price_record price_text ->
  validate_row tiny_price_row = Ok (true, tiny_price_record, [])
  /\ validate_row (rendered_row tiny_price_record price_text)
     = Ok (false, [], ["negative or zero price value"]).
Proof.
  intros (f & Hf & Hp). injection Hf as <-.
  split; [reflexivity|].
  assert (E : expected_reasons (rendered_row tiny_price_record price_text)
              = ["negative or zero price value"]).
  { unfold expected_reasons, cell, rendered_row.
    cbn [map dict_get tiny_price_record app nth field_index all_fields flat_map
         String.eqb Ascii.eqb Bool.eqb].
    destruct (strip price_text) as [|c t] eqn:Ht; [discriminate Hp|].
    unfold format_check at 6. unfold presence_check at 6.
    cbn [nonempty field_check]. unfold price_check. rewrite Hp.
    reflexivity. }
  rewrite <- E. apply validate_row_invalid.
  - reflexivity.
  - rewrite E. discriminate.
Qed.

Lemma rounded_zero_price_fails_revalidation_witness :
  renders_price tiny_price_record "0.0"
  /\ validate_row (rendered_row tiny_price_record "0.0")
     = Ok (false, [], ["negative or zero price value"]).
Proof.
  assert (H : renders_price tiny_price_record "0.0").
  { exists (S754_zero false). split; reflexivity. }
  split; [exact H|].
  exact (proj2 (rounded_zero_price_fails_revalidation "0.0" H)).
Defined.

(** * Further properties *)

(** ** More on the record validator *)

Lemma rstrip_by_clean (p : ascii -> bool) (s : string) :
  ends_clean p s -> rstrip_by p s = s.
Proof.
  unfold ends_clean. induction s as [|c s IH]; [reflexivity|].
  destruct s as [|c' s'].
  - simpl. intros ->. reflexivity.
  - intros H. change (last_char (String c (String c' s')))
      with (last_char (String c' s')) in H.
    pose proof (IH H) as E.
    change (rstrip_by p (String c (String c' s')))
      with (match rstrip_by p (String c' s') with
            | EmptyString => if p c then EmptyString else String c EmptyString
            | String a r => String c (String a r)
            end).
    rewrite E. reflexivity.
Qed.

Lemma lstrip_head (s : string) :
  lstrip s = "" \/ exists c rest, lstrip s = String c rest /\ isspace c = false.
Proof.
  induction s as [|c s IH]; simpl; [auto|].
  destruct (isspace c) eqn:E; [exact IH|]. right. eauto.
Qed.

Lemma lstrip_fixed (c : ascii) (s : string) :
  isspace c = false -> lstrip (String c s) = String c s.
Proof. intros H. simpl. rewrite H. reflexivity. Qed.

(** [s.strip().strip() == s.strip()] *)
Lemma strip_idempotent (s : string) : strip (strip s) = strip s.
Proof.
  unfold strip at 1. unfold rstrip.
  assert (L : lstrip (strip s) = strip s).
  { unfold strip, rstrip. destruct (lstrip_head s) as [->|(c & rest & -> & Hc)].
    - reflexivity.
    - destruct (rstrip_by_keeps_head isspace c rest Hc) as [rest' ->].
      apply lstrip_fixed. exact Hc. }
  rewrite L. apply rstrip_by_clean. apply strip_ends_clean.
Qed.

Lemma map_strip_idempotent (l : list string) :
  map strip (map strip l) = map strip l.
Proof.
  induction l as [|x l IH]; simpl; [reflexivity|].
  rewrite strip_idempotent, IH. reflexivity.
Qed.

(** X1. [validate_row] looks at the first six cells only, and at each of
    them without the white space around it: the row of the six trimmed
    cells has the same outcome. *)
Theorem validate_row_trimmed_six (cells : list string) :
  (6 <= List.length cells)%nat ->
  validate_row (map strip (firstn 6 cells)) = validate_row cells.
Proof.
  intros H. unfold validate_row.
  assert (L : List.length (map strip (firstn 6 cells)) = 6%nat).
  { rewrite length_map, length_firstn. lia. }
  rewrite L. rewrite (proj2 (Nat.ltb_ge _ _) H).
  change (6 <? 6)%nat with false. cbv iota.
  rewrite firstn_all2 by (rewrite L; lia).
  rewrite map_strip_idempotent. reflexivity.
Qed.

Lemma validate_row_trimmed_six_witness :
  validate_row (map strip (firstn 6 (sample_row ++ ["extra"; "cells"])))
  = validate_row (sample_row ++ ["extra"; "cells"]).
Proof.
  apply (validate_row_trimmed_six (sample_row ++ ["extra"; "cells"])).
  simpl. lia.
Defined.

(** ** The canonical form of a timestamp is read back as the same instant *)

Lemma in_Z_range (n lo : Z) (c : nat) :
  lo <= n < lo + Z.of_nat c ->
  In n (map (fun i => lo + Z.of_nat i) (seq 0 c)).
Proof.
  intros H. apply in_map_iff. exists (Z.to_nat (n - lo)). split; [lia|].
  apply in_seq. lia.
Qed.

(** A property of every number of a range, checked number by number *)
Ltac each_in_range n lo c H tac :=
  let Hin := fresh in
  pose proof (in_Z_range n lo c H) as Hin; clear H;
  revert n Hin; refine (proj1 (Forall_forall _ _) _);
  repeat (apply Forall_cons; [tac|]); apply Forall_nil.

Ltac run_matcher := intros; cbn; rewrite ?app_nil_r; reflexivity.

Lemma two_digits_pad2 (n : Z) (rest : list ascii) :
  0 <= n < 0 + Z.of_nat 100 ->
  two is_digit is_digit (pad2_chars n ++ rest) = [(n, rest)].
Proof.
  intros H. revert rest. each_in_range n 0 100%nat H ltac:(intros; reflexivity).
Qed.

Lemma andthen_single {A B : Type} (p : matcher A) (k : A -> matcher B)
      (cs rest : list ascii) (v : A) :
  p cs = [(v, rest)] -> andthen p k cs = k v rest.
Proof. intros H. unfold andthen. rewrite H. simpl. apply app_nil_r. Qed.

Lemma re_Y_pad (y : Z) (rest : list ascii) :
  0 <= y < 10000 ->
  re_Y (pad2_chars (y / 100) ++ pad2_chars (y mod 100) ++ rest) = [(y, rest)].
Proof.
  intros H. unfold re_Y.
  assert (Ha : 0 <= y / 100 < 0 + Z.of_nat 100)
    by (split; [apply Z.div_pos; lia|simpl; apply Z.div_lt_upper_bound; lia]).
  assert (Hb : 0 <= y mod 100 < 0 + Z.of_nat 100)
    by (pose proof (Z.mod_pos_bound y 100); simpl; lia).
  rewrite (andthen_single _ _ _ _ _ (two_digits_pad2 _ _ Ha)).
  rewrite (andthen_single _ _ _ _ _ (two_digits_pad2 _ _ Hb)).
  unfold yield. f_equal. f_equal. pose proof (Z.div_mod y 100). lia.
Qed.

Section Stages.
Context {B : Type}.

Lemma stage_Y (y : Z) (K : Z -> matcher B) (rest : list ascii) :
  0 <= y < 10000 ->
  andthen re_Y (fun v => andthen (lit "-") (fun _ => K v))
          (pad2_chars (y / 100) ++ pad2_chars (y mod 100) ++ "-"%char :: rest)
  = K y rest.
Proof.
  intros H. rewrite (andthen_single _ _ _ _ _ (re_Y_pad y _ H)).
  apply (andthen_single (lit "-") (fun _ => K y) _ rest tt). reflexivity.
Qed.

Lemma stage_m (m : Z) (K : Z -> matcher B) (rest : list ascii) :
  1 <= m < 1 + Z.of_nat 12 ->
  andthen re_m (fun v => andthen (lit "-") (fun _ => K v))
          (pad2_chars m ++ "-"%char :: rest)
  = K m rest.
Proof.
  intros H. revert K rest. each_in_range m 1 12%nat H run_matcher.
Qed.

Lemma stage_d (d : Z) (K : Z -> matcher B) (rest : list ascii) :
  1 <= d < 1 + Z.of_nat 31 ->
  andthen re_d (fun v => andthen spaces_plus (fun _ => K v))
          (pad2_chars d ++ " "%char :: rest)
  = andthen spaces_plus (fun _ => K d) (" "%char :: rest).
Proof.
  intros H. revert K rest. each_in_range d 1 31%nat H run_matcher.
Qed.

Lemma stage_H (H : Z) (K : Z -> matcher B) (rest : list ascii) :
  0 <= H < 0 + Z.of_nat 24 ->
  andthen spaces_plus
          (fun _ => andthen re_H (fun v => andthen (lit ":") (fun _ => K v)))
          (" "%char :: pad2_chars H ++ ":"%char :: rest)
  = K H rest.
Proof.
  intros R. revert K rest. each_in_range H 0 24%nat R run_matcher.
Qed.

Lemma stage_M (M : Z) (K : Z -> matcher B) :
  0 <= M < 0 + Z.of_nat 60 ->
  andthen re_M K (pad2_chars M)
  = K M [] ++ K (M / 10) [digit_char (M mod 10)].
Proof.
  intros R. revert K. each_in_range M 0 60%nat R run_matcher.
Qed.
End Stages.

Lemma datetime_new_inv (y m d H M : Z) (dt : datetime) :
  datetime_new y m d H M = Ok dt ->
  dt = mk_datetime y m d H M
  /\ 1 <= y <= 9999 /\ 1 <= m <= 12 /\ 1 <= d <= 31
  /\ 0 <= H <= 23 /\ 0 <= M <= 59.
Proof.
  unfold datetime_new.
  destruct (_ && _) eqn:E; [|discriminate].
  intros Q. injection Q as <-.
  repeat (apply andb_prop in E; destruct E as [E ?]).
  assert (days_in_month y m <= 31).
  { unfold days_in_month.
    repeat match goal with
           | |- context [match ?x with _ => _ end] => destruct x
           end; lia. }
  repeat split; lia.
Qed.

Lemma strptime_valid (s : string) (dt : datetime) :
  strptime s = Ok dt ->
  datetime_new (year dt) (month dt) (day dt) (hour dt) (minute dt) = Ok dt.
Proof.
  unfold strptime.
  destruct (format_regex (list_ascii_of_string s)) as [|[[[[[y m] d] H] M] [|c r]] l];
    try discriminate.
  intros E. destruct (datetime_new_inv _ _ _ _ _ _ E) as [-> _]. exact E.
Qed.

Lemma strftime_chars (dt : datetime) :
  list_ascii_of_string (strftime dt)
  = pad2_chars (year dt / 100) ++ pad2_chars (year dt mod 100)
    ++ "-"%char :: pad2_chars (month dt)
    ++ "-"%char :: pad2_chars (day dt)
    ++ " "%char :: pad2_chars (hour dt)
    ++ ":"%char :: pad2_chars (minute dt).
Proof. destruct dt. reflexivity. Qed.

(** Reading back what [strftime] wrote gives the datetime it was written
    from. *)
Lemma strptime_strftime (dt : datetime) :
  datetime_new (year dt) (month dt) (day dt) (hour dt) (minute dt) = Ok dt ->
  strptime (strftime dt) = Ok dt.
Proof.
  intros E. destruct (datetime_new_inv _ _ _ _ _ _ E) as (_ & Hy & Hm & Hd & HH & HM).
  unfold strptime. rewrite strftime_chars. unfold format_regex.
  rewrite stage_Y by lia.
  rewrite stage_m by (simpl; lia).
  rewrite stage_d by (simpl; lia).
  rewrite stage_H by (simpl; lia).
  rewrite stage_M by (simpl; lia).
  cbn [yield app]. exact E.
Qed.

(** ** What an accepted row guarantees *)

Lemma expected_nil_checks (cells : list string) (f : field_name) :
  expected_reasons cells = [] ->
  cell cells f <> "" /\ field_check f (cell cells f) = [].
Proof.
  intros E.
  assert (P : presence_check f (cell cells f) = []).
  { destruct (presence_check f (cell cells f)) as [|r l] eqn:Q; [reflexivity|].
    assert (In r (expected_reasons cells)).
    { apply in_expected_reasons. left. exists f. rewrite Q. left. reflexivity. }
    rewrite E in H. destruct H. }
  assert (F : format_check f (cell cells f) = []).
  { destruct (format_check f (cell cells f)) as [|r l] eqn:Q; [reflexivity|].
    assert (In r (expected_reasons cells)).
    { apply in_expected_reasons. right. left. exists f. rewrite Q. left. reflexivity. }
    rewrite E in H. destruct H. }
  unfold presence_check, format_check in *.
  destruct (cell cells f); [discriminate P|]. split; [discriminate|exact F].
Qed.

(** The outcome of an accepted row, with all that the checks established *)
Lemma validate_row_accepts (cells : list string) (rec : dict) (errs : list string) :
  validate_row cells = Ok (true, rec, errs) ->
  errs = [] /\ expected_reasons cells = [] /\ (6 <= List.length cells)%nat
  /\ exists d a p rounded,
      strptime (cell cells F_departure) = Ok d
      /\ strptime (cell cells F_arrival) = Ok a
      /\ dt_le a d = false
      /\ float_of_string (cell cells F_price) = Ok p
      /\ float_le p pos_zero = false
      /\ round_ndigits p 2 = Ok rounded
      /\ rec = [("flight_id", VStr (cell cells F_flight_id));
                ("origin", VStr (cell cells F_origin));
                ("destination", VStr (cell cells F_destination));
                ("departure_datetime", VStr (strftime d));
                ("arrival_datetime", VStr (strftime a));
                ("price", VFloat rounded)].
Proof.
  intros E.
  destruct (Nat.ltb_spec (List.length cells) 6) as [Hlt|Hge].
  { rewrite (validate_row_short cells Hlt) in E. discriminate E. }
  pose proof (validate_row_reasons cells Hge) as R.
  destruct (expected_reasons cells) as [|r L]; [|rewrite R in E; discriminate E].
  destruct R as (d & a & p & Hd & Ha & Hle & Hp & Hpos & R).
  rewrite R in E. destruct (round_ndigits p 2) as [rounded|] eqn:Hr;
    [|discriminate E].
  cbn [bind] in E. injection E as <- <-.
  repeat split; try assumption.
  exists d, a, p, rounded. repeat split; assumption.
Qed.

(** X2. A row is either accepted, with a record of the six fields in their
    order and no reason, or rejected, with no record and at least one
    reason; never both. *)
Theorem validate_row_outcome (cells : list string)
        (valid : bool) (rec : dict) (errs : list string) :
  validate_row cells = Ok (valid, rec, errs) ->
  (valid = true /\ errs = [] /\ map fst rec = recognized)
  \/ (valid = false /\ rec = [] /\ errs <> []).
Proof.
  intros E. destruct valid.
  - left. destruct (validate_row_accepts cells rec errs E)
      as (-> & _ & _ & d & a & p & rounded & _ & _ & _ & _ & _ & _ & ->).
    repeat split.
  - right. destruct (Nat.ltb_spec (List.length cells) 6) as [Hlt|Hge].
    + rewrite (validate_row_short cells Hlt) in E. injection E as <- <-.
      repeat split. discriminate.
    + destruct (validate_row_rejects cells rec errs Hge E) as (-> & _ & Hne).
      repeat split. exact Hne.
Qed.

Lemma validate_row_outcome_witness :
  validate_row sample_row = Ok (true, sample_record, [])
  /\ map fst sample_record = recognized.
Proof.
  assert (E : validate_row sample_row = Ok (true, sample_record, []))
    by reflexivity.
  split; [exact E|].
  destruct (validate_row_outcome sample_row true sample_record [] E)
    as [(_ & _ & H)|(H & _)]; [exact H|discriminate H].
Defined.

(** X3. The text fields of an accepted record are the trimmed cells, and they
    have the shape the checks demand: 2 to 8 letters or digits for the
    identifier, exactly 3 upper-case letters for each airport code. *)
Theorem accepted_text_fields (cells : list string) (rec : dict) (errs : list string) :
  validate_row cells = Ok (true, rec, errs) ->
  exists fid origin dest,
    dict_get "flight_id" rec = Some (VStr fid)
    /\ dict_get "origin" rec = Some (VStr origin)
    /\ dict_get "destination" rec = Some (VStr dest)
    /\ fid = strip (nth 0 cells "")
    /\ origin = strip (nth 1 cells "")
    /\ dest = strip (nth 2 cells "")
    /\ all_in is_alnum fid = true
    /\ (2 <= String.length fid <= 8)%nat
    /\ all_in is_upper origin = true /\ String.length origin = 3%nat
    /\ all_in is_upper dest = true /\ String.length dest = 3%nat.
Proof.
  intros E. destruct (validate_row_accepts cells rec errs E)
    as (_ & Hnil & _ & d & a & p & rounded & _ & _ & _ & _ & _ & _ & ->).
  exists (cell cells F_flight_id), (cell cells F_origin), (cell cells F_destination).
  destruct (expected_nil_checks cells F_flight_id Hnil) as [_ H1].
  destruct (expected_nil_checks cells F_origin Hnil) as [_ H2].
  destruct (expected_nil_checks cells F_destination Hnil) as [_ H3].
  cbn [field_check] in H1, H2, H3.
  unfold identifier_check in H1. unfold airport_check in H2, H3.
  destruct (all_in is_alnum (cell cells F_flight_id)
            && (2 <=? String.length (cell cells F_flight_id))%nat
            && (String.length (cell cells F_flight_id) <=? 8)%nat) eqn:Q1.
  2: { destruct (_ || _); discriminate H1. }
  destruct ((String.length (cell cells F_origin) =? 3)%nat
            && all_in is_upper (cell cells F_origin)) eqn:Q2; [|discriminate H2].
  destruct ((String.length (cell cells F_destination) =? 3)%nat
            && all_in is_upper (cell cells F_destination)) eqn:Q3; [|discriminate H3].
  apply andb_prop in Q1. destruct Q1 as [Q1 Q1c].
  apply andb_prop in Q1. destruct Q1 as [Q1a Q1b].
  apply andb_prop in Q2. destruct Q2 as [Q2a Q2b].
  apply andb_prop in Q3. destruct Q3 as [Q3a Q3b].
  apply Nat.leb_le in Q1b, Q1c. apply Nat.eqb_eq in Q2a, Q3a.
  repeat split; try reflexivity; try assumption.
Qed.

Lemma accepted_text_fields_witness :
  validate_row sample_row = Ok (true, sample_record, [])
  /\ exists fid origin dest,
      dict_get "flight_id" sample_record = Some (VStr fid)
      /\ dict_get "origin" sample_record = Some (VStr origin)
      /\ dict_get "destination" sample_record = Some (VStr dest)
      /\ fid = strip (nth 0 sample_row "")
      /\ origin = strip (nth 1 sample_row "")
      /\ dest = strip (nth 2 sample_row "")
      /\ all_in is_alnum fid = true
      /\ (2 <= String.length fid <= 8)%nat
      /\ all_in is_upper origin = true /\ String.length origin = 3%nat
      /\ all_in is_upper dest = true /\ String.length dest = 3%nat.
Proof.
  assert (E : validate_row sample_row = Ok (true, sample_record, []))
    by reflexivity.
  split; [exact E|].
  exact (accepted_text_fields sample_row sample_record [] E).
Defined.

Lemma strftime_length (dt : datetime) : String.length (strftime dt) = 16%nat.
Proof. destruct dt. reflexivity. Qed.



(** *** The sign of the stored price *)

Lemma binary_round_aux_not_negative (mx ex : Z) (lx : location) :
  SFltb (binary_round_aux prec emax false mx ex lx) pos_zero = false.
Proof.
  unfold binary_round_aux.
  destruct (shr_fexp prec emax mx ex lx) as [mrs e'].
  destruct (shr_fexp prec emax _ e' loc_Exact) as [mrs'' e''].
  destruct (shr_m mrs''); [reflexivity| |reflexivity].
  destruct (Z.leb e'' (emax - prec)); reflexivity.
Qed.

Lemma float_of_ratio_not_negative (n d : Z) :
  0 <= n -> 0 < d -> float_lt (float_of_ratio false n d) pos_zero = false.
Proof.
  intros Hn Hd. unfold float_of_ratio, float_lt.
  destruct (n =? 0); [reflexivity|].
  set (k := Z.max 0 (56 + Z.log2 d - Z.log2 n)).
  assert (Hq : 0 <= n * 2 ^ k / d).
  { apply Z.div_pos; [|exact Hd]. apply Z.mul_nonneg_nonneg; [exact Hn|].
    apply Z.pow_nonneg. lia. }
  set (q := n * 2 ^ k / d) in *.
  set (sticky := if n * 2 ^ k mod d =? 0 then 0 else 1).
  assert (Hs : 0 <= sticky) by (unfold sticky; destruct (_ =? _); lia).
  cbn [cond_Zopp]. unfold binary_normalize.
  destruct (2 * q + sticky) as [|x|x] eqn:Q; [reflexivity| |lia].
  unfold binary_round. destruct (shl_align _ _ _) as [mz ez].
  apply binary_round_aux_not_negative.
Qed.

Lemma round_ndigits_not_negative (p rounded : float) :
  float_le p pos_zero = false ->
  round_ndigits p 2 = Ok rounded ->
  float_lt rounded pos_zero = false.
Proof.
  intros Hp Hr. destruct p as [s|s| |s m e].
  - destruct s; discriminate Hp.
  - destruct s; [discriminate Hp|]. injection Hr as <-. reflexivity.
  - injection Hr as <-. reflexivity.
  - destruct s; [discriminate Hp|].
    unfold round_ndigits in Hr.
    destruct (exact_ratio m e) as [n d] eqn:Q.
    assert (Hnd : 0 <= n /\ 0 < d).
    { unfold exact_ratio in Q.
      destruct (0 <=? e) eqn:He; apply pair_equal_spec in Q; destruct Q as [<- <-].
      - split; [|lia]. apply Z.mul_nonneg_nonneg; [lia|].
        apply Z.pow_nonneg. lia.
      - split; [lia|]. apply Z.pow_pos_nonneg; lia. }
    destruct Hnd as [Hn Hd].
    assert (Hk : 0 <= round_half_even (n * 10 ^ 2) d).
    { unfold round_half_even.
      assert (0 <= n * 10 ^ 2 / d) by (apply Z.div_pos; lia).
      destruct (2 * (n * 10 ^ 2 mod d) ?= d); [destruct (Z.even _)| |]; lia. }
    pose proof (float_of_ratio_not_negative _ (10 ^ 2) Hk eq_refl) as S.
    destruct (float_of_ratio false (round_half_even (n * 10 ^ 2) d) (10 ^ 2));
      try discriminate Hr; injection Hr as <-; exact S.
Qed.

(** X5. The price of an accepted record is the parsed cell rounded to 2
    decimals; the parsed price is not [<= 0] and the stored price is never
    negative. *)
Theorem accepted_price_not_negative (cells : list string) (rec : dict)
        (errs : list string) :
  validate_row cells = Ok (true, rec, errs) ->
  exists p rounded,
    float_of_string (strip (nth 5 cells "")) = Ok p
    /\ float_le p pos_zero = false
    /\ round_ndigits p 2 = Ok rounded
    /\ dict_get "price" rec = Some (VFloat rounded)
    /\ float_lt rounded pos_zero = false.
Proof.
  intros E. destruct (validate_row_accepts cells rec errs E)
    as (_ & _ & _ & d & a & p & rounded & _ & _ & _ & Hp & Hpos & Hr & ->).
  exists p, rounded. repeat split; try assumption.
  exact (round_ndigits_not_negative p rounded Hpos Hr).
Qed.

Lemma accepted_price_not_negative_witness :
  validate_row tiny_price_row = Ok (true, tiny_price_record, [])
  /\ exists p rounded,
    float_of_string (strip (nth 5 tiny_price_row "")) = Ok p
    /\ float_le p pos_zero = false
    /\ round_ndigits p 2 = Ok rounded
    /\ dict_get "price" tiny_price_record = Some (VFloat rounded)
    /\ float_lt rounded pos_zero = false.
Proof.
  assert (E : validate_row tiny_price_row = Ok (true, tiny_price_record, []))
    by reflexivity.
  split; [exact E|].
  exact (accepted_price_not_negative tiny_price_row tiny_price_record [] E).
Defined.

(** ** More on the query matcher *)

(** What [match_query] computes before its loop *)
Lemma match_query_stages (db : list dict) (query : dict) :
  match_query db query
  = (do q_price <-
       match get query "price" with
       | VNone => Ok None
       | v => do f <- float_of_value v; Ok (Some f)
       end;
     match_loop (parse_datetime (get query "departure_datetime"))
                (parse_datetime (get query "arrival_datetime"))
                q_price query db []).
Proof. unfold match_query. rewrite !truthy_guard. reflexivity. Qed.

Lemma match_loop_acc (q_dep q_arr : option datetime) (q_price : option float)
      (query : dict) (db : list dict) :
  forall results,
    match_loop q_dep q_arr q_price query db results
    = (do r <- match_loop q_dep q_arr q_price query db [];
       Ok (results ++ r)).
Proof.
  induction db as [|rec db IH]; intros results; cbn [match_loop].
  - cbn [bind]. rewrite app_nil_r. reflexivity.
  - destruct (match_record q_dep q_arr q_price query rec) as [keep|e];
      [|reflexivity].
    cbn [bind]. rewrite IH. rewrite (IH (if keep then [] ++ [rec] else [])).
    destruct (match_loop q_dep q_arr q_price query db []) as [r|e];
      [|reflexivity].
    cbn [bind]. destruct keep; [rewrite <- app_assoc|]; reflexivity.
Qed.

Lemma match_loop_app (q_dep q_arr : option datetime) (q_price : option float)
      (query : dict) (db1 db2 : list dict) :
  forall results,
    match_loop q_dep q_arr q_price query (db1 ++ db2) results
    = (do r <- match_loop q_dep q_arr q_price query db1 results;
       match_loop q_dep q_arr q_price query db2 r).
Proof.
  induction db1 as [|rec db1 IH]; intros results; cbn [app match_loop].
  - reflexivity.
  - destruct (match_record q_dep q_arr q_price query rec) as [keep|e];
      [|reflexivity].
    cbn [bind]. apply IH.
Qed.

(** X6. Matching distributes over the concatenation of two datasets: the
    result for [db1 ++ db2] is the result for [db1] followed by the result
    for [db2], and it raises when one of them does. *)
Theorem match_query_app (db1 db2 : list dict) (query : dict) :
  match_query (db1 ++ db2) query
  = (do r1 <- match_query db1 query;
     do r2 <- match_query db2 query;
     Ok (r1 ++ r2)).
Proof.
  rewrite !match_query_stages.
  destruct (match get query "price" with
            | VNone => Ok None
            | _ => _
            end) as [q_price|e]; [|reflexivity].
  cbn [bind]. rewrite match_loop_app.
  destruct (match_loop _ _ q_price query db1 []) as [r1|e]; [|reflexivity].
  cbn [bind]. apply match_loop_acc.
Qed.

Lemma kept_record (query rec : dict) (q_price : option float) :
  match get query "price" with
  | VNone => Ok None
  | v => do f <- float_of_value v; Ok (Some f)
  end = Ok q_price ->
  kept query rec
  = match match_record (parse_datetime (get query "departure_datetime"))
                       (parse_datetime (get query "arrival_datetime"))
                       q_price query rec with
    | Ok b => b
    | Raise _ => false
    end.
Proof.
  intros Hp. unfold kept. rewrite match_query_stages, Hp.
  cbn [bind match_loop].
  destruct (match_record _ _ q_price query rec) as [[|]|e]; reflexivity.
Qed.

Lemma match_loop_kept (q_dep q_arr : option datetime) (q_price : option float)
      (query : dict) (db : list dict) (res : list dict) :
  match_loop q_dep q_arr q_price query db [] = Ok res ->
  res = filter (fun rec => match match_record q_dep q_arr q_price query rec with
                           | Ok b => b
                           | Raise _ => false
                           end) db
  /\ Forall (fun rec => match_record q_dep q_arr q_price query rec = Ok true) res.
Proof.
  revert res. induction db as [|rec db IH]; intros res; cbn [match_loop].
  - intros E. injection E as <-. split; [reflexivity|constructor].
  - destruct (match_record q_dep q_arr q_price query rec) as [keep|e] eqn:Hrec;
      [|discriminate].
    cbn [bind]. rewrite match_loop_acc.
    destruct (match_loop q_dep q_arr q_price query db []) as [r|e];
      [|discriminate].
    cbn [bind]. intros E. injection E as <-.
    destruct (IH r eq_refl) as [-> Hall].
    cbn [filter]. rewrite Hrec. destruct keep; cbn [app]; split;
      try reflexivity; try exact Hall.
    constructor; assumption.
Qed.

(** X7. The result of a query is decided record by record: it is the dataset
    filtered by whether each record, alone, matches; so every result is a
    record of the dataset, and the order and the duplicates of the dataset
    are kept. *)
Theorem match_query_by_record (db : list dict) (query : dict) (res : list dict) :
  match_query db query = Ok res ->
  res = filter (kept query) db.
Proof.
  rewrite match_query_stages.
  destruct (match get query "price" with
            | VNone => Ok None
            | _ => _
            end) as [q_price|e] eqn:Hp; [|discriminate].
  cbn [bind]. intros E. apply match_loop_kept in E. destruct E as [-> _].
  apply filter_ext. intros rec. symmetry. apply kept_record. exact Hp.
Qed.

Lemma match_query_by_record_witness :
  match_query [sample_record; nan_price_record; sample_record]
              [("price", VStr " 250 "); ("note", VNone)]
  = Ok [sample_record; nan_price_record; sample_record]
  /\ [sample_record; nan_price_record; sample_record]
     = filter (kept [("price", VStr " 250 "); ("note", VNone)])
              [sample_record; nan_price_record; sample_record].
Proof.
  assert (E : match_query [sample_record; nan_price_record; sample_record]
                          [("price", VStr " 250 "); ("note", VNone)]
              = Ok [sample_record; nan_price_record; sample_record])
    by reflexivity.
  split; [exact E|].
  exact (match_query_by_record _ _ _ E).
Defined.

Lemma match_loop_all_kept (q_dep q_arr : option datetime) (q_price : option float)
      (query : dict) (db : list dict) :
  Forall (fun rec => match_record q_dep q_arr q_price query rec = Ok true) db ->
  match_loop q_dep q_arr q_price query db [] = Ok db.
Proof.
  intros H. rewrite (match_loop_filter _ _ _ query (fun _ => true)).
  - cbn [app]. f_equal. induction db as [|rec db IH]; [reflexivity|].
    cbn [filter]. rewrite IH; [reflexivity|]. inversion H. assumption.
  - exact H.
Qed.

(** X8. Matching is idempotent: querying the result of a query again with the
    same query returns it unchanged. *)
Theorem match_query_idempotent (db : list dict) (query : dict) (res : list dict) :
  match_query db query = Ok res ->
  match_query res query = Ok res.
Proof.
  rewrite !match_query_stages.
  destruct (match get query "price" with
            | VNone => Ok None
            | _ => _
            end) as [q_price|e] eqn:Hp; [|discriminate].
  cbn [bind]. intros E. apply match_loop_kept in E. destruct E as [_ Hall].
  apply match_loop_all_kept. exact Hall.
Qed.

Lemma match_query_idempotent_witness :
  match_query [sample_record; tiny_price_record] [("price", VInt 1)]
  = Ok [tiny_price_record]
  /\ match_query [tiny_price_record] [("price", VInt 1)] = Ok [tiny_price_record].
Proof.
  assert (E : match_query [sample_record; tiny_price_record] [("price", VInt 1)]
              = Ok [tiny_price_record]) by reflexivity.
  split; [exact E|].
  exact (match_query_idempotent _ _ _ E).
Defined.

(** X9. A record that fails an equality test on flight_id, origin or
    destination is passed over before its timestamps and its price are
    looked at: whatever else it holds or lacks, the query goes on as if the
    record were not there. *)
Theorem unequal_record_skipped (rec : dict) (db : list dict) (query : dict) :
  exact_matches ["flight_id"; "origin"; "destination"] rec query = false ->
  match_query (rec :: db) query = match_query db query.
Proof.
  intros H. rewrite !match_query_stages.
  destruct (match get query "price" with
            | VNone => Ok None
            | _ => _
            end) as [q_price|e]; [|reflexivity].
  cbn [bind match_loop]. unfold match_record at 1. rewrite H. reflexivity.
Qed.

Lemma unequal_record_skipped_witness :
  exact_matches ["flight_id"; "origin"; "destination"]
                [("origin", VInt 7)] [("origin", VStr "JFK")] = false
  /\ match_query [[("origin", VInt 7)]; sample_record]
                 [("origin", VStr "JFK");
                  ("departure_datetime", VStr "2024-01-01 00:00")]
     = Ok [sample_record].
Proof.
  split; [reflexivity|].
  exact (unequal_record_skipped
           [("origin", VInt 7)] [sample_record]
           [("origin", VStr "JFK");
            ("departure_datetime", VStr "2024-01-01 00:00")] eq_refl).
Defined.

(** ** From the scanner to the matcher *)

Lemma scan_line_valids (i : Z) (raw : string) (v0 v : list dict)
      (e0 e : list diagnostic) :
  scan_line i raw (v0, e0) = Ok (v, e) ->
  Forall accepted v0 -> Forall accepted v.
Proof.
  unfold scan_line. intros E H0.
  destruct (negb (nonempty (strip (rstrip_by (is_char LF) raw)))).
  { injection E as <- <-. exact H0. }
  destruct (startswith_char "#" (lstrip (rstrip_by (is_char LF) raw))).
  { injection E as <- <-. exact H0. }
  destruct (csv_reader_line (rstrip_by (is_char LF) raw)) as [cells|x].
  2: { injection E as <- <-. exact H0. }
  match type of E with (if ?b then _ else _) = _ => destruct b end.
  { injection E as <- <-. exact H0. }
  destruct (validate_row cells) as [[[valid record] msgs]|x] eqn:V;
    [|discriminate E].
  cbn [bind] in E. destruct valid; injection E as <- <-; [|exact H0].
  apply Forall_app. split; [exact H0|].
  constructor; [|constructor]. exists cells, msgs. exact V.
Qed.

Lemma scan_lines_valids (lines : list string) :
  forall (i : Z) (v0 v : list dict) (e0 e : list diagnostic),
    scan_lines i lines (v0, e0) = Ok (v, e) ->
    Forall accepted v0 -> Forall accepted v.
Proof.
  induction lines as [|raw rest IH]; intros i v0 v e0 e E H0; cbn [scan_lines] in E.
  - injection E as <- <-. exact H0.
  - destruct (scan_line i raw (v0, e0)) as [[v1 e1]|x] eqn:S; [|discriminate E].
    cbn [bind] in E. apply (IH _ _ _ _ _ E).
    exact (scan_line_valids _ _ _ _ _ _ S H0).
Qed.

(** The loop of [match_query] never raises on a record of the validator. *)
Lemma accepted_record_matchable (rec : dict)
      (q_dep q_arr : option datetime) (q_price : option float) (query : dict) :
  accepted rec ->
  exists b, match_record q_dep q_arr q_price query rec = Ok b.
Proof.
  intros (cells & errs & E).
  destruct (validate_row_accepts cells rec errs E)
    as (_ & _ & _ & d & a & p & rounded & Hd & Ha & _ & _ & _ & _ & ->).
  assert (Rd : parse_datetime (VStr (strftime d)) = Some d).
  { apply parse_datetime_some. exact (strptime_strftime d (strptime_valid _ _ Hd)). }
  assert (Ra : parse_datetime (VStr (strftime a)) = Some a).
  { apply parse_datetime_some. exact (strptime_strftime a (strptime_valid _ _ Ha)). }
  unfold match_record.
  destruct (exact_matches _ _ query); cbn [negb]; [|eauto].
  change (item _ "departure_datetime") with (Ok (VStr (strftime d))).
  change (item _ "arrival_datetime") with (Ok (VStr (strftime a))).
  change (get_default _ "price" (VInt 0)) with (VFloat rounded).
  cbn [bind float_of_value]. rewrite Rd, Ra.
  destruct q_dep as [qd|], q_arr as [qa|], q_price as [qp|]; cbn [bind];
    repeat match goal with
           | |- context [if negb ?x then _ else _] => destruct x; cbn [negb]
           end; eauto.
Qed.

Lemma match_loop_total (q_dep q_arr : option datetime) (q_price : option float)
      (query : dict) (db : list dict) :
  Forall accepted db ->
  exists res, match_loop q_dep q_arr q_price query db [] = Ok res.
Proof.
  induction 1 as [|rec db Hrec _ [res IH]]; cbn [match_loop]; [eauto|].
  destruct (accepted_record_matchable rec q_dep q_arr q_price query Hrec)
    as [b ->].
  cbn [bind]. rewrite match_loop_acc, IH. cbn [bind]. eauto.
Qed.

(** A dataset of records of the validator can always be queried. *)
Lemma accepted_dataset_queryable (db : list dict) (query : dict) :
  Forall accepted db ->
  match_query db query
  = (do _ <- query_price query; Ok (filter (kept query) db)).
Proof.
  intros Hdb.
  destruct (query_price query) as [q_price|x] eqn:Hp.
  - cbn [bind].
    destruct (match_loop_total (parse_datetime (get query "departure_datetime"))
                               (parse_datetime (get query "arrival_datetime"))
                               q_price query db Hdb) as [res Hres].
    assert (Q : match_query db query = Ok res).
    { rewrite match_query_stages. fold (query_price query). rewrite Hp.
      exact Hres. }
    rewrite Q. f_equal. rewrite match_query_stages in Q.
    fold (query_price query) in Q. rewrite Hp in Q. cbn [bind] in Q.
    apply match_loop_kept in Q. destruct Q as [-> _].
    apply filter_ext. intros rec. symmetry. apply kept_record. exact Hp.
  - rewrite match_query_stages. fold (query_price query). rewrite Hp.
    reflexivity.
Qed.

Lemma parse_csv_file_valids (lines : list string) (db : list dict)
      (errors : list diagnostic) :
  parse_csv_file lines = Ok (db, errors) -> Forall accepted db.
Proof.
  intros E. unfold parse_csv_file in E.
  exact (scan_lines_valids _ _ _ _ _ _ E (Forall_nil _)).
Qed.



(** ** More on the scanner *)

(** What one line adds: nothing, one record, or one diagnostic that carries
    the number of the line and its text without the newline *)
Lemma scan_line_adds (i : Z) (raw : string) (v : list dict) (e : list diagnostic) :
  scan_line i raw ([], []) = Ok (v, e) ->
  (List.length v + List.length e <= 1)%nat
  /\ Forall (fun x => line_no x = i /\ line_text x = rstrip_by (is_char LF) raw) e.
Proof.
  unfold scan_line. intros E.
  destruct (negb (nonempty (strip (rstrip_by (is_char LF) raw)))).
  { injection E as <- <-. split; [simpl; lia|constructor]. }
  destruct (startswith_char "#" (lstrip (rstrip_by (is_char LF) raw))).
  { injection E as <- <-. split; [simpl; lia|].
    constructor; [split; reflexivity|constructor]. }
  destruct (csv_reader_line (rstrip_by (is_char LF) raw)) as [cells|x].
  2: { injection E as <- <-. split; [simpl; lia|].
       constructor; [split; reflexivity|constructor]. }
  match type of E with (if ?b then _ else _) = _ => destruct b end.
  { injection E as <- <-. split; [simpl; lia|constructor]. }
  destruct (validate_row cells) as [[[valid record] msgs]|x]; [|discriminate E].
  cbn [bind] in E. destruct valid; injection E as <- <-.
  - split; [simpl; lia|constructor].
  - split; [simpl; lia|]. constructor; [split; reflexivity|constructor].
Qed.

Lemma scan_lines_accounting (lines : list string) :
  forall (i : Z) (v : list dict) (e : list diagnostic),
    scan_lines i lines ([], []) = Ok (v, e) ->
    (List.length v + List.length e <= List.length lines)%nat
    /\ StronglySorted Z.lt (map line_no e)
    /\ Forall (fun x => i <= line_no x
                        /\ exists raw,
                            nth_error lines (Z.to_nat (line_no x - i)) = Some raw
                            /\ line_text x = rstrip_by (is_char LF) raw) e.
Proof.
  induction lines as [|raw rest IH]; intros i v e E.
  - injection E as <- <-. repeat split; simpl; try lia; constructor.
  - cbn [scan_lines] in E.
    destruct (scan_line i raw ([], [])) as [[v1 e1]|x] eqn:Hline; [|discriminate E].
    cbn [bind] in E. rewrite scan_lines_acc in E.
    destruct (scan_lines (i + 1) rest ([], [])) as [[v2 e2]|x] eqn:R;
      [|discriminate E].
    cbn [bind fst snd] in E. injection E as <- <-.
    destruct (scan_line_adds _ _ _ _ Hline) as [Hone Hfirst].
    destruct (IH _ _ _ R) as (Hcount & Hsorted & Hrest).
    split; [|split].
    + rewrite !length_app. cbn [List.length]. lia.
    + rewrite map_app.
      assert (Hlow : Forall (fun n => i < n) (map line_no e2)).
      { rewrite Forall_map. eapply Forall_impl; [|exact Hrest].
        intros x [Hx _]. lia. }
      destruct e1 as [|x1 [|x1' e1]]; cbn [List.length] in Hone; try lia.
      * exact Hsorted.
      * pose proof (Forall_inv Hfirst) as [Hn _].
        cbn [map app]. constructor; [exact Hsorted|].
        rewrite Hn. exact Hlow.
    + apply Forall_app. split.
      * eapply Forall_impl; [|exact Hfirst]. intros x [Hn Ht].
        split; [lia|]. exists raw. rewrite Hn, Z.sub_diag. split; [reflexivity|exact Ht].
      * eapply Forall_impl; [|exact Hrest]. intros x (Hn & raw' & Hnth & Ht).
        split; [lia|]. exists raw'. split; [|exact Ht].
        replace (Z.to_nat (line_no x - i)) with (S (Z.to_nat (line_no x - (i + 1))))
          by lia.
        exact Hnth.
Qed.

Lemma parse_csv_file_accounting_parts (lines : list string) (valids : list dict)
      (errors : list diagnostic) :
  parse_csv_file lines = Ok (valids, errors) ->
  StronglySorted Z.lt (map line_no errors)
  /\ forall x, In x errors ->
               exists raw,
                 nth_error lines (Z.to_nat (line_no x - 1)) = Some raw
                 /\ line_text x = rstrip_by (is_char LF) raw.
Proof.
  intros E. destruct (scan_lines_accounting lines 1 valids errors E)
    as (_ & Hsorted & Hall).
  split; [exact Hsorted|].
  intros x Hx. rewrite Forall_forall in Hall.
  destruct (Hall x Hx) as (_ & raw & Hnth & Ht). eauto.
Qed.

(** X11. Every line gives at most one record or one diagnostic; the
    diagnostics come in strictly increasing line numbers, counted from 1
    over all the lines, skipped ones included, and each quotes the text of
    its line without the trailing newline. *)
Theorem parse_csv_file_accounting (lines : list string) (valids : list dict)
        (errors : list diagnostic) :
  parse_csv_file lines = Ok (valids, errors) ->
  (List.length valids + List.length errors <= List.length lines)%nat
  /\ StronglySorted Z.lt (map line_no errors)
  /\ forall x, In x errors ->
               1 <= line_no x <= Z.of_nat (List.length lines)
               /\ exists raw,
                   nth_error lines (Z.to_nat (line_no x - 1)) = Some raw
                   /\ line_text x = rstrip_by (is_char LF) raw.
Proof.
  intros E. destruct (scan_lines_accounting lines 1 valids errors E)
    as (Hcount & Hsorted & Hall).
  split; [exact Hcount|]. split; [exact Hsorted|].
  intros x Hx. rewrite Forall_forall in Hall.
  destruct (Hall x Hx) as (Hn & raw & Hnth & Ht).
  split; [|eauto]. split; [exact Hn|].
  assert (Z.to_nat (line_no x - 1) < List.length lines)%nat
    by (apply nth_error_Some; rewrite Hnth; discriminate).
  lia.
Qed.

Lemma parse_csv_file_accounting_witness :
  parse_csv_file ["flight_id,origin"; ""; "# n"; "A,jfk"; "a,b,c,d,e,f"]
  = Ok ([], [(3, "# n", comment_message);
             (4, "A,jfk", "missing required fields");
             (5, "a,b,c,d,e,f",
              "flight_id length must be 2-8 alphanumeric characters, invalid origin code, invalid destination code, invalid departure datetime, invalid arrival datetime, invalid price format")])
  /\ StronglySorted Z.lt [3; 4; 5].
Proof.
  assert (E : parse_csv_file
                ["flight_id,origin"; ""; "# n"; "A,jfk"; "a,b,c,d,e,f"]
              = Ok ([], [(3, "# n", comment_message);
             (4, "A,jfk", "missing required fields");
             (5, "a,b,c,d,e,f",
              "flight_id length must be 2-8 alphanumeric characters, invalid origin code, invalid destination code, invalid departure datetime, invalid arrival datetime, invalid price format")]))
    by reflexivity.
  split; [exact E|].
  exact (proj1 (proj2 (parse_csv_file_accounting _ _ _ E))).
Defined.

Lemma all_space_lstrip (s : string) : all_in isspace s = true -> lstrip s = "".
Proof.
  induction s as [|c s IH]; simpl; [reflexivity|].
  intros H. apply andb_prop in H. destruct H as [-> H]. exact (IH H).
Qed.

Lemma all_in_rstrip_by (cls p : ascii -> bool) (s : string) :
  all_in cls s = true -> all_in cls (rstrip_by p s) = true.
Proof.
  induction s as [|c s IH]; simpl; [reflexivity|].
  intros H. apply andb_prop in H. destruct H as [Hc H]. specialize (IH H).
  destruct (rstrip_by p s) as [|c' r].
  - destruct (p c); simpl; [reflexivity|rewrite Hc; reflexivity].
  - cbn [all_in]. rewrite Hc. exact IH.
Qed.

Lemma scan_line_blank (i : Z) (raw : string) (acc : list dict * list diagnostic) :
  all_in isspace raw = true -> scan_line i raw acc = Ok acc.
Proof.
  intros H. unfold scan_line. destruct acc as [v e].
  unfold strip. rewrite (all_space_lstrip _ (all_in_rstrip_by _ _ _ H)).
  reflexivity.
Qed.

(** X12. A line that is empty or holds white space only adds neither a record
    nor a diagnostic, wherever it stands; it still counts in the numbering
    of the lines after it. *)
Theorem blank_line_skipped (before after : list string) (raw : string) :
  all_in isspace raw = true ->
  parse_csv_file (before ++ raw :: after)
  = (do a <- parse_csv_file before;
     do b <- scan_lines (Z.of_nat (List.length before) + 2) after ([], []);
     Ok (fst a ++ fst b, snd a ++ snd b)).
Proof.
  intros H. unfold parse_csv_file. rewrite scan_lines_app.
  destruct (scan_lines 1 before ([], [])) as [[v1 e1]|x]; [|reflexivity].
  cbn [bind scan_lines fst snd]. rewrite (scan_line_blank _ raw _ H).
  cbn [bind]. rewrite scan_lines_acc.
  replace (1 + Z.of_nat (List.length before) + 1)
    with (Z.of_nat (List.length before) + 2) by lia.
  reflexivity.
Qed.

Lemma blank_line_skipped_witness :
  all_in isspace "   " = true
  /\ parse_csv_file (["# a"] ++ "   " :: ["# b"])
     = Ok ([], [(1, "# a", comment_message); (3, "# b", comment_message)]).
Proof.
  split; [reflexivity|].
  exact (blank_line_skipped ["# a"] ["# b"] "   " eq_refl).
Defined.

(** ** The reader of comma-separated lines *)

Lemma list_ascii_app (a b : string) :
  list_ascii_of_string (a ++ b)%string
  = list_ascii_of_string a ++ list_ascii_of_string b.
Proof. induction a as [|c a IH]; simpl; [reflexivity|rewrite IH; reflexivity]. Qed.

Lemma parse_chars_app (cs1 cs2 : list ascii) :
  forall r, parse_chars r (cs1 ++ cs2)
            = (do r' <- parse_chars r cs1; parse_chars r' cs2).
Proof.
  induction cs1 as [|c cs1 IH]; intros r; cbn [app parse_chars]; [reflexivity|].
  destruct (parse_process_char r (Some c)); [apply IH|reflexivity].
Qed.

Lemma append_snoc (a : string) (c : ascii) (b : string) :
  ((a ++ String c "") ++ b)%string = (a ++ String c b)%string.
Proof. induction a as [|x a IH]; simpl; [reflexivity|rewrite IH; reflexivity]. Qed.

Lemma length_append (a b : string) :
  String.length (a ++ b) = (String.length a + String.length b)%nat.
Proof. induction a as [|x a IH]; simpl; [reflexivity|rewrite IH; reflexivity]. Qed.

Lemma append_empty_r (a : string) : (a ++ "")%string = a.
Proof. induction a as [|x a IH]; simpl; [reflexivity|rewrite IH; reflexivity]. Qed.

Lemma plain_char_inv (c : ascii) :
  plain_char c = true ->
  is_char delimiter c = false /\ is_char quotechar c = false /\ is_newline c = false.
Proof.
  unfold plain_char. intros H. apply negb_true_iff in H.
  apply orb_false_iff in H. destruct H as [H H3].
  apply orb_false_iff in H. tauto.
Qed.

(** A plain character is added to the field that is being read. *)
Lemma step_plain (r : reader) (c : ascii) :
  plain_char c = true ->
  field_open (state r) = true ->
  (N.of_nat (String.length (field r)) < field_limit)%N ->
  parse_process_char r (Some c)
  = Ok (mk_reader IN_FIELD (fields r) (field r ++ String c "")).
Proof.
  intros Hc Hs Hl. destruct (plain_char_inv c Hc) as (Hd & Hq & Hn).
  assert (Hadd : forall st,
             parse_add_char (mk_reader st (fields r) (field r)) c
             = Ok (mk_reader st (fields r) (field r ++ String c ""))).
  { intros st. unfold parse_add_char. cbn [field fields state].
    destruct (N.leb_spec field_limit (N.of_nat (String.length (field r))));
      [lia|reflexivity]. }
  destruct r as [st fs fd]. cbn [state fields field] in *.
  destruct st; try discriminate Hs;
    unfold parse_process_char, set_state; cbn [state fields field];
    rewrite ?Hn, ?Hq, ?Hd, ?Hadd; reflexivity.
Qed.

Lemma parse_plain (s : string) :
  forall r,
    all_in plain_char s = true ->
    field_open (state r) = true ->
    (N.of_nat (String.length (field r) + String.length s) <= field_limit)%N ->
    parse_chars r (list_ascii_of_string s)
    = Ok (match s with
          | EmptyString => r
          | _ => mk_reader IN_FIELD (fields r) (field r ++ s)
          end).
Proof.
  induction s as [|c s IH]; intros r Hp Hs Hl; [reflexivity|].
  cbn [all_in] in Hp. apply andb_prop in Hp. destruct Hp as [Hc Hp].
  cbn [list_ascii_of_string parse_chars].
  cbn [String.length] in Hl.
  rewrite (step_plain r c Hc Hs) by lia. cbn [bind].
  rewrite IH; cbn [state fields field]; try assumption; try reflexivity.
  - destruct s; [reflexivity|]. rewrite append_snoc. reflexivity.
  - rewrite length_append. cbn [String.length]. lia.
Qed.

Lemma step_comma (r : reader) :
  field_open (state r) = true ->
  parse_process_char r (Some delimiter)
  = Ok (mk_reader START_FIELD (fields r ++ [field r]) "").
Proof.
  destruct r as [st fs fd]. cbn [state]. intros Hs.
  destruct st; try discriminate Hs; reflexivity.
Qed.

Lemma step_end (r : reader) :
  match state r with START_FIELD | IN_FIELD => True | _ => False end ->
  parse_process_char r None
  = Ok (mk_reader START_RECORD (fields r ++ [field r]) "").
Proof.
  destruct r as [st fs fd]. cbn [state]. intros Hs.
  destruct st; try destruct Hs; reflexivity.
Qed.

Lemma plain_cell_inv (s : string) :
  plain_cell s = true ->
  all_in plain_char s = true
  /\ (N.of_nat (String.length s) <= field_limit)%N.
Proof.
  unfold plain_cell. intros H. apply andb_prop in H. destruct H as [H1 H2].
  apply N.leb_le in H2. auto.
Qed.

(** Reading the cells joined by commas, from the start of a field *)
Lemma parse_joined (cells : list string) :
  forall r,
    cells <> [] ->
    Forall (fun c => plain_cell c = true) cells ->
    field_open (state r) = true ->
    field r = "" ->
    (state r = START_RECORD -> join "," cells <> "") ->
    (do r' <- parse_chars r (list_ascii_of_string (join "," cells));
     parse_process_char r' None)
    = Ok (mk_reader START_RECORD (fields r ++ cells) "").
Proof.
  induction cells as [|x rest IH]; intros r Hne Hall Hs Hf Hstart; [contradiction|].
  pose proof (Forall_inv Hall) as Hx. apply plain_cell_inv in Hx.
  destruct Hx as [Hxp Hxl].
  destruct rest as [|y rest].
  - cbn [join]. rewrite parse_plain; try assumption.
    2: { rewrite Hf. exact Hxl. }
    cbn [bind]. destruct x as [|c x].
    + rewrite step_end.
      * rewrite Hf. reflexivity.
      * destruct r as [st fs fd]. cbn [state] in *.
        destruct st; try discriminate Hs; try exact I.
        exfalso. apply Hstart; reflexivity.
    + rewrite step_end; [|exact I]. cbn [fields field]. rewrite Hf. reflexivity.
  - change (join "," (x :: y :: rest))
      with (x ++ String delimiter (join "," (y :: rest)))%string.
    rewrite list_ascii_app. cbn [list_ascii_of_string].
    rewrite parse_chars_app. rewrite parse_plain; try assumption.
    2: { rewrite Hf. exact Hxl. }
    cbn [bind parse_chars].
    assert (Hcomma : parse_process_char
                       match x with
                       | EmptyString => r
                       | String _ _ => mk_reader IN_FIELD (fields r) (field r ++ x)
                       end (Some delimiter)
                     = Ok (mk_reader START_FIELD (fields r ++ [x]) "")).
    { destruct x as [|c x].
      - rewrite (step_comma r Hs), Hf. reflexivity.
      - rewrite step_comma by reflexivity. cbn [fields field].
        rewrite Hf. reflexivity. }
    rewrite Hcomma. cbn [bind].
    rewrite (IH (mk_reader START_FIELD (fields r ++ [x]) "")).
    + cbn [fields]. rewrite <- app_assoc. reflexivity.
    + discriminate.
    + exact (Forall_inv_tail Hall).
    + reflexivity.
    + reflexivity.
    + discriminate.
Qed.

(** The reader splits a line of plain cells at its commas. *)
Lemma csv_reader_plain (cells : list string) :
  Forall (fun c => plain_cell c = true) cells ->
  join "," cells <> "" ->
  csv_reader_line (join "," cells) = Ok cells.
Proof.
  intros Hall Hne. unfold csv_reader_line.
  assert (Hc : cells <> []) by (intros ->; apply Hne; reflexivity).
  pose proof (parse_joined cells (mk_reader START_RECORD [] "") Hc Hall
                           eq_refl eq_refl (fun _ => Hne)) as P.
  destruct (parse_chars _ _) as [r'|x]; [|discriminate P].
  cbn [bind] in *. rewrite P. reflexivity.
Qed.

Lemma first_non_space_found (s : string) (c : ascii) (rest : string) :
  lstrip s = String c rest -> isspace c = false -> first_non_space s = Some c.
Proof.
  induction s as [|a s IH]; simpl; [discriminate|].
  destruct (isspace a) eqn:E; [exact IH|].
  intros H _. injection H as -> _. reflexivity.
Qed.

Lemma strip_head (s : string) (c : ascii) (t : string) :
  strip s = String c t -> first_non_space s = Some c.
Proof.
  unfold strip, rstrip. intros H.
  destruct (lstrip_head s) as [E|(a & rest & E & Ha)].
  - rewrite E in H. discriminate H.
  - rewrite E in H.
    destruct (rstrip_by_keeps_head isspace a rest Ha) as [rest' Q].
    rewrite Q in H. injection H as -> _.
    exact (first_non_space_found s c rest E Ha).
Qed.

Lemma first_non_space_append (s t : string) (c : ascii) :
  first_non_space s = Some c -> first_non_space (s ++ t) = Some c.
Proof.
  induction s as [|a s IH]; simpl; [discriminate|].
  destruct (isspace a); [exact IH|auto].
Qed.

(** The tests of the loop before the reader, on a line that starts, after
    white space, with a character other than [#] *)
Lemma scan_line_data (i : Z) (raw : string) (c : ascii)
      (v : list dict) (e : list diagnostic) :
  first_non_space (rstrip_by (is_char LF) raw) = Some c ->
  c <> "#"%char ->
  scan_line i raw (v, e)
  = match csv_reader_line (rstrip_by (is_char LF) raw) with
    | Raise _ => Ok (v, e ++ [(i, rstrip_by (is_char LF) raw, "malformed CSV line")])
    | Ok cells =>
        if match cells with
           | c0 :: _ => String.eqb (lower (strip c0)) "flight_id"
           | [] => false
           end
        then Ok (v, e)
        else
          do r <- validate_row cells;
          let '(valid, record, msgs) := r in
          if valid then Ok (v ++ [record], e)
          else Ok (v, e ++ [(i, rstrip_by (is_char LF) raw, join ", " msgs)])
    end.
Proof.
  intros H Hc. unfold scan_line.
  destruct (first_non_space_lstrip _ _ H) as [Hsp [rest Hl]].
  unfold strip, rstrip. rewrite Hl.
  destruct (rstrip_by_keeps_head isspace c rest Hsp) as [rest' ->].
  cbn [nonempty negb startswith_char].
  destruct (Ascii.eqb_spec c "#"); [contradiction|reflexivity].
Qed.

(** X13. A line of plain cells joined by commas, that is neither blank, nor a
    comment, nor a header, is validated as exactly these cells: an accepted
    row adds its record, a rejected row adds one diagnostic with its reasons
    joined by a comma and a blank. *)
Theorem plain_line_validated (i : Z) (raw : string) (cells : list string)
        (c : ascii) (v : list dict) (e : list diagnostic) :
  Forall (fun x => plain_cell x = true) cells ->
  rstrip_by (is_char LF) raw = join "," cells ->
  first_non_space (join "," cells) = Some c ->
  c <> "#"%char ->
  lower (strip (hd "" cells)) <> "flight_id" ->
  scan_line i raw (v, e)
  = (do r <- validate_row cells;
     let '(valid, record, msgs) := r in
     if valid then Ok (v ++ [record], e)
     else Ok (v, e ++ [(i, join "," cells, join ", " msgs)])).
Proof.
  intros Hall Hraw Hfirst Hc Hhead.
  rewrite <- Hraw in Hfirst. rewrite (scan_line_data i raw c v e Hfirst Hc).
  rewrite Hraw. rewrite csv_reader_plain; [|exact Hall|].
  - destruct cells as [|c0 rest]; [reflexivity|]. cbn [hd] in Hhead.
    destruct (String.eqb_spec (lower (strip c0)) "flight_id");
      [contradiction|reflexivity].
  - rewrite Hraw in Hfirst. intros Q. rewrite Q in Hfirst. discriminate Hfirst.
Qed.

Lemma plain_line_validated_witness :
  scan_line 7 "AB12, JFK ,LAX,2024-01-01 08:00,2024-1-1 14:30,199.999,x"
            ([], [])
  = Ok ([sample_record], []).
Proof.
  refine (plain_line_validated
            7 "AB12, JFK ,LAX,2024-01-01 08:00,2024-1-1 14:30,199.999,x"
            ["AB12"; " JFK "; "LAX"; "2024-01-01 08:00"; "2024-1-1 14:30";
             "199.999"; "x"] "A" [] [] _ eq_refl eq_refl _ _).
  - repeat constructor.
  - discriminate.
  - discriminate.
Defined.

Lemma header_first_char (c0 : string) :
  lower (strip c0) = "flight_id" ->
  exists c, first_non_space c0 = Some c /\ c <> "#"%char.
Proof.
  intros H. destruct (strip c0) as [|c t] eqn:E; [discriminate H|].
  exists c. split; [exact (strip_head c0 c t E)|].
  intros ->. discriminate H.
Qed.

(** X14. A line of plain cells whose first cell, trimmed and in lower case, is
    [flight_id] is a header wherever it stands in the file: it adds neither
    a record nor a diagnostic, and the lines after it keep their numbers. *)
Theorem header_line_skipped (before after : list string) (raw : string)
        (cells : list string) :
  Forall (fun x => plain_cell x = true) cells ->
  rstrip_by (is_char LF) raw = join "," cells ->
  lower (strip (hd "" cells)) = "flight_id" ->
  parse_csv_file (before ++ raw :: after)
  = (do a <- parse_csv_file before;
     do b <- scan_lines (Z.of_nat (List.length before) + 2) after ([], []);
     Ok (fst a ++ fst b, snd a ++ snd b)).
Proof.
  intros Hall Hraw Hhead.
  destruct cells as [|c0 rest]; [discriminate Hhead|]. cbn [hd] in Hhead.
  destruct (header_first_char c0 Hhead) as (c & Hfirst & Hc).
  assert (Hline : first_non_space (rstrip_by (is_char LF) raw) = Some c).
  { rewrite Hraw. destruct rest as [|y rest]; [exact Hfirst|].
    change (join "," (c0 :: y :: rest))
      with (c0 ++ String delimiter (join "," (y :: rest)))%string.
    apply first_non_space_append. exact Hfirst. }
  assert (Hskip : forall i acc, scan_line i raw acc = Ok acc).
  { intros i [v e]. rewrite (scan_line_data i raw c v e Hline Hc).
    rewrite Hraw. rewrite csv_reader_plain; [|exact Hall|].
    - rewrite Hhead. reflexivity.
    - rewrite Hraw in Hline. intros Q. rewrite Q in Hline. discriminate Hline. }
  unfold parse_csv_file. rewrite scan_lines_app.
  destruct (scan_lines 1 before ([], [])) as [[v1 e1]|x]; [|reflexivity].
  cbn [bind scan_lines fst snd]. rewrite Hskip.
  cbn [bind]. rewrite scan_lines_acc.
  replace (1 + Z.of_nat (List.length before) + 1)
    with (Z.of_nat (List.length before) + 2) by lia.
  reflexivity.
Qed.

Lemma header_line_skipped_witness :
  parse_csv_file (["A,jfk"] ++ " Flight_ID ,origin" :: ["A,jfk"])
  = Ok ([], [(1, "A,jfk", "missing required fields");
             (3, "A,jfk", "missing required fields")]).
Proof.
  refine (header_line_skipped ["A,jfk"] ["A,jfk"] " Flight_ID ,origin"
            [" Flight_ID "; "origin"] _ eq_refl eq_refl).
  repeat constructor.
Defined.

(** ** The files of a folder *)

Lemma ascii_compare_N (a b : ascii) :
  Ascii.compare a b = N.compare (N_of_ascii a) (N_of_ascii b).
Proof. reflexivity. Qed.

Lemma str_le_trans (a b c : string) : str_le a b -> str_le b c -> str_le a c.
Proof.
  unfold str_le, String.leb. revert b c.
  induction a as [|x a IH]; intros [|y b] [|z c]; simpl; try congruence.
  rewrite !ascii_compare_N.
  destruct (N.compare_spec (N_of_ascii x) (N_of_ascii y)) as [E|E|E];
    destruct (N.compare_spec (N_of_ascii y) (N_of_ascii z)) as [F|F|F];
    try congruence;
    destruct (N.compare_spec (N_of_ascii x) (N_of_ascii z)) as [G|G|G];
    try congruence; try lia.
  apply IH.
Qed.

Lemma insert_sorted_perm (x : string) (l : list string) :
  Permutation (insert_sorted x l) (x :: l).
Proof.
  induction l as [|y l IH]; simpl; [reflexivity|].
  destruct (String.leb x y); [reflexivity|].
  rewrite IH. apply perm_swap.
Qed.

Lemma sorted_perm (l : list string) : Permutation (sorted l) l.
Proof.
  induction l as [|x l IH]; simpl; [reflexivity|].
  rewrite insert_sorted_perm. constructor. exact IH.
Qed.

Lemma insert_sorted_ascending (x : string) (l : list string) :
  StronglySorted str_le l -> StronglySorted str_le (insert_sorted x l).
Proof.
  induction 1 as [|y l Hl IH Hy]; simpl.
  - constructor; constructor.
  - destruct (String.leb x y) eqn:E.
    + constructor; [constructor; assumption|].
      constructor; [exact E|].
      eapply Forall_impl; [|exact Hy]. intros z Hz.
      exact (str_le_trans x y z E Hz).
    + constructor; [exact IH|].
      rewrite (insert_sorted_perm x l). constructor; [|exact Hy].
      destruct (String.leb_total x y) as [T|T]; [congruence|exact T].
Qed.

Lemma sorted_ascending (l : list string) : StronglySorted str_le (sorted l).
Proof.
  induction l as [|x l IH]; simpl; [constructor|].
  apply insert_sorted_ascending. exact IH.
Qed.

Lemma ascending_unique (l1 : list string) :
  forall l2, StronglySorted str_le l1 -> StronglySorted str_le l2 ->
             Permutation l1 l2 -> l1 = l2.
Proof.
  induction l1 as [|a l1 IH]; intros l2 S1 S2 P.
  - apply Permutation_nil in P. congruence.
  - destruct l2 as [|b l2].
    { apply Permutation_sym, Permutation_nil in P. discriminate P. }
    apply StronglySorted_inv in S1. destruct S1 as [S1 F1].
    apply StronglySorted_inv in S2. destruct S2 as [S2 F2].
    assert (E : a = b).
    { assert (Ia : In a (b :: l2))
        by (apply (Permutation_in _ P); left; reflexivity).
      assert (Ib : In b (a :: l1))
        by (apply (Permutation_in _ (Permutation_sym P)); left; reflexivity).
      rewrite Forall_forall in F1, F2.
      destruct Ia as [Q|Ia]; [congruence|].
      destruct Ib as [Q|Ib]; [congruence|].
      apply String.leb_antisym; [exact (F1 b Ib)|exact (F2 a Ia)]. }
    subst b. f_equal. apply IH; [exact S1|exact S2|].
    exact (Permutation_cons_inv P).
Qed.

Lemma sorted_permutation (g1 g2 : list string) :
  Permutation g1 g2 -> sorted g1 = sorted g2.
Proof.
  intros P. apply ascending_unique; try apply sorted_ascending.
  rewrite !sorted_perm. exact P.
Qed.

(** X15. The result of a folder does not depend on the order in which the
    directory lists its files. *)
Theorem parse_folder_order_free (read : string -> result (list string))
        (g1 g2 : list string) :
  Permutation g1 g2 -> parse_folder read g1 = parse_folder read g2.
Proof.
  intros P. unfold parse_folder. rewrite (sorted_permutation g1 g2 P).
  reflexivity.
Qed.

Lemma parse_folder_order_free_witness :
  parse_folder sample_folder ["data/b.csv"; "data/a.csv"]
  = parse_folder sample_folder ["data/a.csv"; "data/b.csv"].
Proof.
  apply (parse_folder_order_free sample_folder
           ["data/b.csv"; "data/a.csv"] ["data/a.csv"; "data/b.csv"]).
  apply perm_swap.
Defined.

Lemma tag_errors_map (path : string) (e : list diagnostic) :
  forall all_errors,
    tag_errors path e all_errors = all_errors ++ map (tagged path) e.
Proof.
  induction e as [|[[ln raw] msg] e IH]; intros all_errors; simpl.
  - rewrite app_nil_r. reflexivity.
  - rewrite IH, <- app_assoc. reflexivity.
Qed.

Lemma folder_loop_step (read : string -> result (list string))
      (path : string) (rest : list string)
      (acc : list dict * list folder_diagnostic) :
  folder_loop read (path :: rest) acc
  = (do part <- file_part read path;
     folder_loop read rest (fst acc ++ fst part, snd acc ++ snd part)).
Proof.
  cbn [folder_loop]. unfold file_part.
  destruct (read path) as [lines|x]; [|reflexivity]. cbn [bind].
  destruct (parse_csv_file lines) as [r|x]; [|reflexivity]. cbn [bind fst snd].
  rewrite tag_errors_map. reflexivity.
Qed.

Lemma folder_loop_acc (read : string -> result (list string)) (paths : list string) :
  forall acc,
    folder_loop read paths acc
    = (do r <- folder_loop read paths ([], []);
       Ok (fst acc ++ fst r, snd acc ++ snd r)).
Proof.
  induction paths as [|path rest IH]; intros [v e].
  - cbn [folder_loop bind fst snd]. rewrite !app_nil_r. reflexivity.
  - rewrite !folder_loop_step.
    destruct (file_part read path) as [[v1 e1]|x]; [|reflexivity].
    cbn [bind fst snd app]. rewrite (IH (v ++ v1, e ++ e1)), (IH (v1, e1)).
    destruct (folder_loop read rest ([], [])) as [[v2 e2]|x]; [|reflexivity].
    cbn [bind fst snd]. rewrite !app_assoc. reflexivity.
Qed.

Lemma folder_loop_parts (read : string -> result (list string)) (paths : list string) :
  forall db errs,
    folder_loop read paths ([], []) = Ok (db, errs) <->
    exists parts,
      Forall2 (fun path part => file_part read path = Ok part) paths parts
      /\ db = List.concat (map fst parts)
      /\ errs = List.concat (map snd parts).
Proof.
  induction paths as [|path rest IH]; intros db errs.
  - cbn [folder_loop]. split.
    + intros E. injection E as <- <-. exists []. repeat split. constructor.
    + intros (parts & F & -> & ->). inversion F. reflexivity.
  - rewrite folder_loop_step. split.
    + destruct (file_part read path) as [[v1 e1]|x] eqn:P; [|discriminate].
      cbn [bind fst snd app]. rewrite folder_loop_acc.
      destruct (folder_loop read rest ([], [])) as [[v2 e2]|x] eqn:R;
        [|discriminate].
      cbn [bind fst snd]. intros E. injection E as <- <-.
      destruct (proj1 (IH v2 e2) eq_refl) as (parts & F & -> & ->).
      exists ((v1, e1) :: parts). repeat split.
      constructor; [exact P|exact F].
    + intros (parts & F & -> & ->).
      inversion F as [|p part ps parts' P F' E1 E2]. subst.
      rewrite P. cbn [bind fst snd app]. rewrite folder_loop_acc.
      rewrite (proj2 (IH _ _) (ex_intro _ parts' (conj F' (conj eq_refl eq_refl)))).
      destruct part as [v1 e1]. reflexivity.
Qed.

(** X16. The records of a folder are the records of its files, put end to
    end in ascending order of the paths, and so are the diagnostics, each
    with the path of its file before the line number; the folder has a
    result exactly when each of its files has one. *)
Theorem parse_folder_parts (read : string -> result (list string))
        (globbed : list string) (db : list dict) (errs : list folder_diagnostic) :
  parse_folder read globbed = Ok (db, errs) <->
  exists paths parts,
    Permutation paths globbed
    /\ StronglySorted str_le paths
    /\ Forall2 (fun path part => file_part read path = Ok part) paths parts
    /\ db = List.concat (map fst parts)
    /\ errs = List.concat (map snd parts).
Proof.
  unfold parse_folder. rewrite folder_loop_parts. split.
  - intros (parts & F & Hdb & Herrs). exists (sorted globbed), parts.
    split; [apply sorted_perm|]. split; [apply sorted_ascending|].
    repeat split; assumption.
  - intros (paths & parts & P & A & F & Hdb & Herrs). exists parts.
    replace (sorted globbed) with paths; [repeat split; assumption|].
    apply ascending_unique; [exact A|apply sorted_ascending|].
    rewrite sorted_perm. exact P.
Qed.

Lemma parse_folder_parts_witness :
  parse_folder sample_folder ["data/b.csv"; "data/a.csv"]
  = Ok ([sample_record],
        [("data/b.csv", 1, "# late flights", comment_message);
         ("data/b.csv", 2, "A,jfk", "missing required fields")]).
Proof.
  apply (proj2 (parse_folder_parts sample_folder ["data/b.csv"; "data/a.csv"] _ _)).
  exists ["data/a.csv"; "data/b.csv"],
         [([sample_record], []);
          ([], [("data/b.csv", 1, "# late flights", comment_message);
                ("data/b.csv", 2, "A,jfk", "missing required fields")])].
  split; [apply perm_swap|]. split.
  - repeat constructor.
  - split; [|split; reflexivity].
    constructor; [reflexivity|]. constructor; [reflexivity|constructor].
Defined.

Lemma file_part_inv (read : string -> result (list string)) (path : string)
      (part : list dict * list folder_diagnostic) :
  file_part read path = Ok part ->
  exists lines v e,
    read path = Ok lines /\ parse_csv_file lines = Ok (v, e)
    /\ part = (v, map (tagged path) e).
Proof.
  unfold file_part. destruct (read path) as [lines|x] eqn:R; [|discriminate].
  cbn [bind]. destruct (parse_csv_file lines) as [[v e]|x] eqn:Q; [|discriminate].
  cbn [bind fst snd]. intros E. injection E as <-.
  exists lines, v, e. repeat split. exact Q.
Qed.

Lemma ascending_app {A : Type} (R : A -> A -> Prop) (l1 l2 : list A) :
  StronglySorted R l1 -> StronglySorted R l2 ->
  Forall (fun a => Forall (R a) l2) l1 ->
  StronglySorted R (l1 ++ l2).
Proof.
  induction 1 as [|a l1 S1 IH F1]; intros S2 H; simpl; [exact S2|].
  apply Forall_cons_iff in H. destruct H as [Ha H].
  constructor; [exact (IH S2 H)|].
  apply Forall_app. split; assumption.
Qed.

Lemma tagged_ascending (path : string) (e : list diagnostic) :
  StronglySorted Z.lt (map line_no e) ->
  StronglySorted diagnostic_before (map (tagged path) e).
Proof.
  induction e as [|x e IH]; simpl; intros H; [constructor|].
  apply StronglySorted_inv in H. destruct H as [H F].
  constructor; [exact (IH H)|].
  rewrite Forall_map in F |- *. eapply Forall_impl; [|exact F].
  intros y Hy. right. split; [reflexivity|exact Hy].
Qed.

(** The diagnostics of the files of an ascending list of distinct paths *)
Lemma folder_parts_diagnostics (read : string -> result (list string))
      (paths : list string) (parts : list (list dict * list folder_diagnostic)) :
  Forall2 (fun path part => file_part read path = Ok part) paths parts ->
  StronglySorted str_le paths -> NoDup paths ->
  StronglySorted diagnostic_before (List.concat (map snd parts))
  /\ Forall (fun x =>
               In (path_of x) paths
               /\ exists lines raw,
                   read (path_of x) = Ok lines
                   /\ nth_error lines (Z.to_nat (line_of x - 1)) = Some raw
                   /\ text_of x = rstrip_by (is_char LF) raw)
            (List.concat (map snd parts)).
Proof.
  induction 1 as [|path part paths parts P F IH]; intros A D.
  - split; constructor.
  - apply StronglySorted_inv in A. destruct A as [A Hle].
    apply NoDup_cons_iff in D. destruct D as [Hnot D].
    destruct (IH A D) as [Hsorted Hall].
    destruct (file_part_inv read path part P)
      as (lines & v & e & Hread & Hparse & ->).
    destruct (parse_csv_file_accounting_parts lines v e Hparse)
      as (Hlines & Hin).
    cbn [map List.concat snd]. split.
    + apply ascending_app; [exact (tagged_ascending path e Hlines)|exact Hsorted|].
      rewrite Forall_map. apply Forall_forall. intros x _.
      eapply Forall_impl; [|exact Hall]. intros y [Hy _].
      left. change (path_of (tagged path x)) with path. split.
      * rewrite Forall_forall in Hle. exact (Hle _ Hy).
      * intros Q. apply Hnot. rewrite Q. exact Hy.
    + apply Forall_app. split.
      * rewrite Forall_map. apply Forall_forall. intros x Hx.
        change (path_of (tagged path x)) with path. split; [left; reflexivity|].
        destruct (Hin x Hx) as (raw & Hnth & Ht).
        exists lines, raw. repeat split; assumption.
      * eapply Forall_impl; [|exact Hall]. intros y [Hy Hrest].
        split; [right; exact Hy|exact Hrest].
Qed.

(** X17. When the listed paths are distinct, the diagnostics of a folder come
    in strictly ascending order of path, then of line number, so that none
    is reported twice; each names a listed file and quotes, without the
    trailing newline, the line of that file with its number. *)
Theorem parse_folder_diagnostics (read : string -> result (list string))
        (globbed : list string) (db : list dict) (errs : list folder_diagnostic) :
  NoDup globbed ->
  parse_folder read globbed = Ok (db, errs) ->
  StronglySorted diagnostic_before errs
  /\ forall x, In x errs ->
               In (path_of x) globbed
               /\ exists lines raw,
                   read (path_of x) = Ok lines
                   /\ nth_error lines (Z.to_nat (line_of x - 1)) = Some raw
                   /\ text_of x = rstrip_by (is_char LF) raw.
Proof.
  intros D E. unfold parse_folder in E.
  apply folder_loop_parts in E. destruct E as (parts & F & _ & ->).
  assert (D' : NoDup (sorted globbed)).
  { exact (Permutation_NoDup (Permutation_sym (sorted_perm globbed)) D). }
  destruct (folder_parts_diagnostics read _ parts F (sorted_ascending globbed) D')
    as [Hsorted Hall].
  split; [exact Hsorted|].
  intros x Hx. rewrite Forall_forall in Hall.
  destruct (Hall x Hx) as [Hp Hrest]. split; [|exact Hrest].
  exact (Permutation_in _ (sorted_perm globbed) Hp).
Qed.

Lemma parse_folder_diagnostics_witness :
  StronglySorted diagnostic_before
    [("data/b.csv", 1, "# late flights", comment_message);
     ("data/b.csv", 2, "A,jfk", "missing required fields")].
Proof.
  refine (proj1 (parse_folder_diagnostics sample_folder
                   ["data/b.csv"; "data/a.csv"] [sample_record] _ _ eq_refl)).
  constructor; [|constructor; [|constructor]]; simpl.
  - intros [Q|[]]. discriminate Q.
  - intros [].
Defined.

Lemma folder_parts_valids (read : string -> result (list string))
      (paths : list string) (parts : list (list dict * list folder_diagnostic)) :
  Forall2 (fun path part => file_part read path = Ok part) paths parts ->
  Forall accepted (List.concat (map fst parts)).
Proof.
  induction 1 as [|path part paths parts P F IH]; [constructor|].
  destruct (file_part_inv read path part P) as (lines & v & e & _ & Hparse & ->).
  cbn [map List.concat fst]. apply Forall_app. split; [|exact IH].
  exact (parse_csv_file_valids lines v e Hparse).
Qed.



(** ** The responses to a file of queries *)

Lemma responses_loop_acc (db : list dict) (qs : list value) :
  forall responses,
    responses_loop db qs responses
    = (do r <- responses_loop db qs []; Ok (responses ++ r)).
Proof.
  induction qs as [|q rest IH]; intros responses; cbn [responses_loop].
  - cbn [bind]. rewrite app_nil_r. reflexivity.
  - destruct (match_query_any db q) as [matches|e]; [|reflexivity].
    cbn [bind app]. rewrite IH, (IH [response q matches]).
    destruct (responses_loop db rest []) as [r|e]; [|reflexivity].
    cbn [bind]. rewrite <- app_assoc. reflexivity.
Qed.

Lemma responses_loop_raises (db : list dict) (qs : list value) (q : value) (e : exn) :
  In q qs -> match_query_any db q = Raise e ->
  exists e', responses_loop db qs [] = Raise e'.
Proof.
  induction qs as [|q0 rest IH]; intros Hin Hq; [destruct Hin|].
  cbn [responses_loop].
  destruct (match_query_any db q0) as [matches|e0] eqn:E0; [|simpl; eauto].
  cbn [bind app]. rewrite responses_loop_acc.
  destruct Hin as [->|Hin]; [congruence|].
  destruct (IH Hin Hq) as [e' ->]. simpl. eauto.
Qed.

(** X19. The queries of a file are answered all or none: when one query of
    the list is not an object, or asks for a price that [float] cannot read,
    [run_queries] raises and gives no response to the others either. *)
Theorem run_queries_all_or_none (db : list dict) (qs : list value) (q : value)
        (e : exn) (studentid name lastname : string) (now : datetime) :
  In q qs ->
  match_query_any db q = Raise e ->
  exists e', run_queries db (VList qs) studentid name lastname now = Raise e'.
Proof.
  intros Hin Hq. unfold run_queries. cbn [queries_of bind].
  destruct (responses_loop_raises db qs q e Hin Hq) as [e' ->].
  simpl. eauto.
Qed.

Lemma run_queries_all_or_none_witness :
  exists e',
    run_queries [sample_record]
                (VList [VDict [("origin", VStr "JFK")];
                        VDict [("price", VStr "cheap")]])
                "000000" "Ada" "Lovelace" (mk_datetime 2024 1 1 8 0)
    = Raise e'.
Proof.
  apply (run_queries_all_or_none
           [sample_record]
           [VDict [("origin", VStr "JFK")]; VDict [("price", VStr "cheap")]]
           (VDict [("price", VStr "cheap")]) ValueError).
  - right. left. reflexivity.
  - reflexivity.
Defined.

Lemma responses_loop_answers (db : list dict) (queries : list dict) :
  Forall accepted db ->
  Forall (fun query => exists p, query_price query = Ok p) queries ->
  responses_loop db (map VDict queries) [] = Ok (map (answer db) queries).
Proof.
  intros Hdb. induction 1 as [|query queries [p Hp] _ IH]; [reflexivity|].
  cbn [map responses_loop match_query_any].
  rewrite (accepted_dataset_queryable db query Hdb), Hp. cbn [bind app].
  rewrite responses_loop_acc, IH. reflexivity.
Qed.



Lemma all_in_append (p : ascii -> bool) (a b : string) :
  all_in p (a ++ b)%string = all_in p a && all_in p b.
Proof.
  induction a as [|c a IH]; simpl; [reflexivity|].
  rewrite IH. apply andb_assoc.
Qed.

Lemma replace_char_no_blank (s : string) :
  no_blank (replace_char " " "_" s) = true.
Proof.
  unfold no_blank. induction s as [|c s IH]; simpl; [reflexivity|].
  rewrite IH. unfold is_char.
  destruct (Ascii.eqb_spec c " ") as [->|N]; [reflexivity|].
  destruct (Ascii.eqb_spec c " "); [contradiction|reflexivity].
Qed.

Lemma replace_char_length (old new : ascii) (s : string) :
  String.length (replace_char old new s) = String.length s.
Proof. induction s as [|c s IH]; simpl; congruence. Qed.

Lemma pad2_no_blank (n : Z) :
  0 <= n < 0 + Z.of_nat 100 -> no_blank (pad2 n) = true.
Proof. intros H. each_in_range n 0 100%nat H ltac:(reflexivity). Qed.

Lemma strftime_stamp_no_blank (y m d H M : Z) (dt : datetime) :
  datetime_new y m d H M = Ok dt -> no_blank (strftime_stamp dt) = true.
Proof.
  intros E. destruct (datetime_new_inv y m d H M dt E)
    as (-> & Hy & Hm & Hd & HH & HM).
  unfold strftime_stamp, pad4, no_blank. cbn [year month day hour minute].
  rewrite !all_in_append.
  fold (no_blank (pad2 (y / 100))). fold (no_blank (pad2 (y mod 100))).
  fold (no_blank (pad2 m)). fold (no_blank (pad2 d)).
  fold (no_blank (pad2 H)). fold (no_blank (pad2 M)).
  rewrite !pad2_no_blank; [reflexivity|..]; try lia.
  - pose proof (Z.mod_pos_bound y 100). lia.
  - split; [apply Z.div_pos; lia|]. apply Z.div_lt_upper_bound; lia.
Qed.

(** X21. The name of the response file holds no blank when the student id
    holds none: the blanks of the two names become underscores, and the
    stamp of a valid time is made of 12 digits and one underscore. The name
    is as long as its parts, the two names unchanged in length. *)
Theorem response_name_no_blank (studentid name lastname : string)
        (y m d H M : Z) (now : datetime) :
  datetime_new y m d H M = Ok now ->
  no_blank studentid = true ->
  no_blank (response_name studentid name lastname now) = true
  /\ String.length (response_name studentid name lastname now)
     = (String.length studentid + String.length name
        + String.length lastname + 30)%nat.
Proof.
  intros E Hs. split.
  - unfold response_name, no_blank. rewrite !all_in_append.
    fold (no_blank studentid). fold (no_blank (replace_char " " "_" name)).
    fold (no_blank (replace_char " " "_" lastname)).
    fold (no_blank (strftime_stamp now)).
    rewrite Hs, !replace_char_no_blank, (strftime_stamp_no_blank _ _ _ _ _ _ E).
    reflexivity.
  - unfold response_name. rewrite !length_append, !replace_char_length.
    destruct now. cbn. lia.
Qed.

Lemma response_name_no_blank_witness :
  no_blank (response_name "000000" "Mary Ann" "van Dyke"
                          (mk_datetime 2024 2 29 23 59)) = true
  /\ String.length (response_name "000000" "Mary Ann" "van Dyke"
                                  (mk_datetime 2024 2 29 23 59))
     = (6 + 8 + 8 + 30)%nat.
Proof.
  exact (response_name_no_blank "000000" "Mary Ann" "van Dyke"
           2024 2 29 23 59 (mk_datetime 2024 2 29 23 59) eq_refl eq_refl).
Defined.

(** ** Round trips and the values a query cannot use *)



(** X23. Cells without comma, quote or newline, joined by commas, are read
    back by the reader of a line as the same cells, blanks kept. *)
Theorem csv_reader_round_trip (cells : list string) :
  Forall (fun c => plain_cell c = true) cells ->
  join "," cells <> "" ->
  csv_reader_line (join "," cells) = Ok cells.
Proof. exact (csv_reader_plain cells). Qed.

Lemma csv_reader_round_trip_witness :
  csv_reader_line " AB12 ,,JFK , x y" = Ok [" AB12 "; ""; "JFK "; " x y"].
Proof.
  apply (csv_reader_round_trip [" AB12 "; ""; "JFK "; " x y"]).
  - repeat constructor.
  - discriminate.
Defined.

(** X24. A timestamp of a query that [parse_datetime] cannot read, be it a
    string that is no date or a value that is no string, has the effect of
    no timestamp at all: the query gives what it gives without that key, on
    every dataset. *)
Theorem unparseable_timestamp_dropped (db : list dict) (query : dict)
        (key : string) (v : value) :
  key = "departure_datetime" \/ key = "arrival_datetime" ->
  dict_get key query = Some v ->
  parse_datetime v = None ->
  match_query db query = match_query db (dict_remove key query).
Proof.
  intros [->| ->] Hv Hp.
  - exact (match_query_drops_departure db query v Hv Hp).
  - exact (match_query_drops_arrival db query v Hv Hp).
Qed.

Lemma unparseable_timestamp_dropped_witness :
  match_query [sample_record]
              [("origin", VStr "JFK"); ("arrival_datetime", VStr "2024-02-30 10:00")]
  = match_query [sample_record] [("origin", VStr "JFK")].
Proof.
  exact (unparseable_timestamp_dropped
           [sample_record]
           [("origin", VStr "JFK"); ("arrival_datetime", VStr "2024-02-30 10:00")]
           "arrival_datetime" (VStr "2024-02-30 10:00")
           (or_intror eq_refl) eq_refl eq_refl).
Defined.

(** X25. A price of a query that is not null and that [float] cannot read
    makes [match_query] raise the exception of [float], before any record
    is looked at and even on an empty dataset. *)
Theorem unreadable_price_raises (db : list dict) (query : dict) (v : value)
        (e : exn) :
  dict_get "price" query = Some v ->
  v <> VNone ->
  float_of_value v = Raise e ->
  match_query db query = Raise e.
Proof. exact (match_query_price_raises db query v e). Qed.

Lemma unreadable_price_raises_witness :
  match_query [] [("price", VList [VInt 100])] = Raise TypeError.
Proof.
  apply (unreadable_price_raises [] [("price", VList [VInt 100])]
           (VList [VInt 100]) TypeError).
  - reflexivity.
  - discriminate.
  - reflexivity.
Defined.
